(** * Spark History Server demo job (jobs/spark_history_demo.py)

    A shallow embedding of [run_complex_spark_job] and of the part of the
    dataframe engine it drives, together with the properties of the
    pipeline contract.

    - Dataframes are lists of typed rows, one record per schema that the
      job goes through.
    - The engine's floating point functions ([rand], [sin], [pow], the
      aggregates) are an interface, [Numerics]: no property below depends
      on their values.
    - The object store is an interface, [ObjectStore], whose reference
      instance is a finite map from locations to parquet files.
    - The job itself is written in a small state, error and output monad:
      the state is the engine session, the output is the sequence of
      engine calls and printed lines. *)

From Stdlib Require Import ZArith QArith Ascii String List Lia.
From stdpp Require Import base tactics option list sorting gmap strings pretty.

#[local] Open Scope Z_scope.
#[local] Open Scope string_scope.

(** ** Engine numerics *)

(** What [pyspark.sql.functions] computes on doubles. [rand_at seed pos] is
    the value that a [rand()] column created with [seed] takes on the row
    at position [pos]. *)
Class Numerics := {
  Double : Type;
  lit : Q -> Double;
  rand_at : Z -> nat -> Double;
  fadd : Double -> Double -> Double;
  fpow : Double -> Double -> Double;
  fsin : Double -> Double;
  fleb : Double -> Double -> bool;
  agg_sum : list Double -> Double;
  agg_avg : list Double -> Double;
  agg_max : list Double -> Double;
  agg_min : list Double -> Double;
  agg_stddev : list Double -> Double;
  percentile_approx : list Double -> Double -> Double;
  approx_count_distinct : list Z -> Z
}.

Definition of_long `{Numerics} (z : Z) : Double := lit (inject_Z z).

Definition flt `{Numerics} (x y : Double) : bool := negb (fleb y x).

(** ** Schemas *)

Inductive DataType := LongType | DoubleType.

#[global] Instance DataType_eq_dec : EqDecision DataType.
Proof. solve_decision. Defined.

Record struct_field := StructField {
  field_name : string;
  field_type : DataType;
  nullable : bool
}.

#[global] Instance struct_field_eq_dec : EqDecision struct_field.
Proof. solve_decision. Defined.

Definition struct_type := list struct_field.

Definition StructType (fields : list struct_field) : struct_type := fields.

(** The schema declared for the re-read of the raw data. *)
Definition schema : struct_type :=
  StructType [
    StructField "id" LongType true;
    StructField "value" DoubleType true;
    StructField "group" LongType true
  ].

(** ** Rows *)

(** [df] after generation, as written to and read from [raw_data]. *)
Record RawRow {N : Numerics} := mkRaw {
  raw_id : Z;
  raw_value : Double;
  raw_group : Z
}.
Arguments mkRaw {N}.

(** [df1]: the transformed dataset. *)
Record TransformedRow {N : Numerics} := mkTransformed {
  t_id : Z;
  t_value : Double;
  t_group : Z;
  t_random : Double;
  t_complex_calc : Double
}.
Arguments mkTransformed {N}.

(** [df2]: one row per group. *)
Record AggRow {N : Numerics} := mkAgg {
  a_group : Z;
  a_count : Z;
  a_sum : Double;
  a_avg : Double;
  a_median : Double
}.
Arguments mkAgg {N}.

(** [df3]: [df1] joined with [df2] on [group]. *)
Record JoinedRow {N : Numerics} := mkJoined {
  j_group : Z;
  j_id : Z;
  j_value : Double;
  j_random : Double;
  j_complex_calc : Double;
  j_count : Z;
  j_sum : Double;
  j_avg : Double;
  j_median : Double
}.
Arguments mkJoined {N}.

(** [df4]: [df3] with the three ranking columns. *)
Record RankedRow {N : Numerics} := mkRanked {
  r_base : JoinedRow;
  r_row_number : Z;
  r_rank : Z;
  r_dense_rank : Z
}.
Arguments mkRanked {N}.

Definition r_group `{Numerics} (r : RankedRow) : Z := j_group (r_base r).
Definition r_id `{Numerics} (r : RankedRow) : Z := j_id (r_base r).
Definition r_random `{Numerics} (r : RankedRow) : Double := j_random (r_base r).
Definition r_complex_calc `{Numerics} (r : RankedRow) : Double :=
  j_complex_calc (r_base r).

(** [sql_result]. *)
Record SqlRow {N : Numerics} := mkSql {
  s_group : Z;
  s_avg_calc : Double;
  s_max_random : Double;
  s_min_random : Double;
  s_distinct_ids : Z
}.
Arguments mkSql {N}.

(** [final_result]. *)
Record FinalRow {N : Numerics} := mkFinal {
  f_group : Z;
  f_count : Z;
  f_sum_calc : Double;
  f_avg_random : Double;
  f_max_row_num : Z;
  f_std_dev : Double
}.
Arguments mkFinal {N}.

(** ** Dataframe operations *)

Section Dataframe.
Context `{N : Numerics}.

(** [spark.range(a, b)]: the ids [a], [a+1], ..., [b-1]. *)
Definition range (a b : Z) : list Z := seqZ a (b - a).

(** [df.count()]. *)
Definition count {A} (df : list A) : Z := Z.of_nat (length df).

(** [col % n] on longs: the remainder has the sign of the dividend. *)
Definition spark_mod (x n : Z) : Z := Z.rem x n.

(** [df.withColumn("value", rand()).withColumn("group", col("id") % 1000)]
    on the output of [spark.range]. *)
Definition with_value_and_group (seed : Z) (df : list Z) : list RawRow :=
  imap (fun pos i => mkRaw i (rand_at seed pos) (spark_mod i 1000)) df.

(** [df.repartition(n)]: the rows are redistributed, none is added or
    lost. *)
Definition repartition {A} (n : Z) (df : list A) : list A := df.

(** [df.withColumn("random", rand())
       .withColumn("group", col("id") % 1000)
       .withColumn("complex_calc", pow(col("random"), 2) + sin(col("id")))
       .repartition(200)]. *)
Definition transform (seed : Z) (df : list RawRow) : list TransformedRow :=
  repartition 200
    (imap (fun pos r =>
             let random := rand_at seed pos in
             mkTransformed (raw_id r) (raw_value r)
               (spark_mod (raw_id r) 1000)
               random
               (fadd (fpow random (of_long 2)) (fsin (of_long (raw_id r)))))
          df).

(** [df.groupBy(key)]: the distinct keys, each with its rows. *)
Definition groupBy {A} (key : A -> Z) (df : list A) : list (Z * list A) :=
  (fun g => (g, filter (fun r => key r = g) df)) <$> remove_dups (key <$> df).

(** [df1.groupBy("group").agg(count("*"), sum("complex_calc"),
      avg("random"), percentile_approx("random", 0.5))]. *)
Definition aggregate (df1 : list TransformedRow) : list AggRow :=
  (fun '(g, rows) =>
     mkAgg g (count rows)
       (agg_sum (t_complex_calc <$> rows))
       (agg_avg (t_random <$> rows))
       (percentile_approx (t_random <$> rows) (lit (1 # 2))))
  <$> groupBy t_group df1.

(** [broadcast(df)]: a hint for the planner. *)
Definition broadcast {A} (df : list A) : list A := df.

(** [df1.join(df2, "group")]: inner equi-join, the join column first. *)
Definition join (df1 : list TransformedRow) (df2 : list AggRow)
  : list JoinedRow :=
  r ← df1;
  a ← filter (fun a => a_group a = t_group r) df2;
  [mkJoined (t_group r) (t_id r) (t_value r) (t_random r) (t_complex_calc r)
     (a_count a) (a_sum a) (a_avg a) (a_median a)].

(** [Window.partitionBy("group").orderBy("random")]. *)
Record WindowSpec := mkWindow {
  partition_by : JoinedRow -> Z;
  order_by : JoinedRow -> Double
}.

Definition window_spec : WindowSpec := mkWindow j_group j_random.

Definition window_le (w : WindowSpec) (x y : JoinedRow) : Prop :=
  fleb (order_by w x) (order_by w y) = true.

#[global] Instance window_le_dec w x y : Decision (window_le w x y).
Proof. unfold window_le. apply _. Defined.

(** The rows of one window partition, in window order. *)
Definition partition_rows (w : WindowSpec) (df : list JoinedRow) (g : Z)
  : list JoinedRow :=
  merge_sort (window_le w) (filter (fun r => partition_by w r = g) df).

(** [row_number()]: the position in the partition, from 1. *)
Definition row_number (pos : nat) : Z := Z.of_nat pos + 1.

(** [rank()]: one more than the number of rows ordered strictly before. *)
Definition rank (keys : list Double) (k : Double) : Z :=
  count (filter (fun y => flt y k = true) keys) + 1.

(** The distinct values of an ordered column. *)
Fixpoint distinct_ordered (keys : list Double) : list Double :=
  match keys with
  | [] => []
  | x :: rest =>
      match rest with
      | [] => [x]
      | y :: _ => if fleb y x then distinct_ordered rest
                  else x :: distinct_ordered rest
      end
  end.

(** [dense_rank()]: one more than the number of distinct values ordered
    strictly before. *)
Definition dense_rank (keys : list Double) (k : Double) : Z :=
  count (distinct_ordered (filter (fun y => flt y k = true) keys)) + 1.

(** [df3.withColumn("row_number", row_number().over(w))
        .withColumn("rank", rank().over(w))
        .withColumn("dense_rank", dense_rank().over(w))]. *)
Definition with_rankings (w : WindowSpec) (df3 : list JoinedRow)
  : list RankedRow :=
  g ← remove_dups (partition_by w <$> df3);
  let rows := partition_rows w df3 g in
  let keys := order_by w <$> rows in
  imap (fun pos r =>
          mkRanked r (row_number pos)
            (rank keys (order_by w r)) (dense_rank keys (order_by w r)))
       rows.

(** [ORDER BY group] and [orderBy("group")]. *)
Definition key_le {A} (key : A -> Z) (x y : A) : Prop := key x <= key y.

#[global] Instance key_le_dec {A} (key : A -> Z) x y :
  Decision (key_le key x y).
Proof. unfold key_le. apply _. Defined.

Definition orderBy {A} (key : A -> Z) (df : list A) : list A :=
  merge_sort (key_le key) df.

(** The query run on the view [complex_data]:
<<
      SELECT group, avg(complex_calc) as avg_calc, max(random) as max_random,
             min(random) as min_random, approx_count_distinct(id) as distinct_ids
      FROM complex_data
      GROUP BY group
      HAVING count( * ) > 100
      ORDER BY group
>> *)
Definition sql_query (complex_data : list RankedRow) : list SqlRow :=
  orderBy s_group
    ((fun '(g, rows) =>
        mkSql g
          (agg_avg (r_complex_calc <$> rows))
          (agg_max (r_random <$> rows))
          (agg_min (r_random <$> rows))
          (approx_count_distinct (r_id <$> rows)))
     <$> filter (fun '(g, rows) => 100 < count rows)
                (groupBy r_group complex_data)).

(** [max(col("row_number"))] over the rows of a group. *)
Definition max_long (l : list Z) : Z :=
  match l with
  | [] => 0
  | x :: rest => foldr Z.max x rest
  end.

(** [df4.repartition(100).groupBy("group").agg(count("*"),
      sum(col("complex_calc")), avg(col("random")), max(col("row_number")),
      stddev(col("complex_calc")))]. *)
Definition final_aggregate (df4 : list RankedRow) : list FinalRow :=
  (fun '(g, rows) =>
     mkFinal g (count rows)
       (agg_sum (r_complex_calc <$> rows))
       (agg_avg (r_random <$> rows))
       (max_long (r_row_number <$> rows))
       (agg_stddev (r_complex_calc <$> rows)))
  <$> groupBy r_group (repartition 100 df4).

(** The number of rows of [df] whose key is [g]. *)
Definition group_size {A} (key : A -> Z) (g : Z) (df : list A) : Z :=
  count (filter (fun r => key r = g) df).

(** [df.show(n)]: the first [n] rows. *)
Definition show {A} (n : nat) (df : list A) : list A := take n df.

End Dataframe.

(** ** An executable instance of the numerics

    Integer-valued "doubles", to run the model on concrete inputs. *)

Definition integer_numerics : Numerics := {|
  Double := Z;
  lit q := Qnum q / Z.pos (Qden q);
  rand_at seed pos := (seed * 31 + Z.of_nat pos * 17) mod 101;
  fadd := Z.add;
  fpow := Z.pow;
  fsin _ := 0;
  fleb := Z.leb;
  agg_sum l := foldr Z.add 0 l;
  agg_avg l := foldr Z.add 0 l / Z.of_nat (length l);
  agg_max l := foldr Z.max 0 l;
  agg_min l := match l with [] => 0 | x :: r => foldr Z.min x r end;
  agg_stddev _ := 0;
  percentile_approx l _ :=
    nth (length l / 2) (merge_sort Z.le l) 0;
  approx_count_distinct l := Z.of_nat (length (remove_dups l))
|}.

(** ** Object store *)

(** A parquet directory holds one of the three datasets that the job
    writes. *)
Inductive Parquet {N : Numerics} :=
| RawData (rows : list RawRow)
| SqlResults (rows : list SqlRow)
| FinalResults (rows : list FinalRow).

Inductive SaveMode := Append | Overwrite | ErrorIfExists | Ignore.

(** [DataFrameWriter.mode(name)]. *)
Definition save_mode (name : string) : option SaveMode :=
  if decide (name = "append") then Some Append
  else if decide (name = "overwrite") then Some Overwrite
  else if decide (name = "error") then Some ErrorIfExists
  else if decide (name = "errorifexists") then Some ErrorIfExists
  else if decide (name = "ignore") then Some Ignore
  else None.

(** The object store as the job sees it: a location is written with a save
    mode and read back; either operation may fail with a message. *)
Class ObjectStore {N : Numerics} := {
  Bucket : Type;
  put_object : SaveMode -> string -> Parquet -> Bucket -> string + Bucket;
  get_object : string -> Bucket -> string + Parquet
}.

(** The columns of a parquet directory. *)
Definition columns `{Numerics} (file : Parquet) : list (string * DataType) :=
  match file with
  | RawData _ => [("id", LongType); ("value", DoubleType); ("group", LongType)]
  | SqlResults _ =>
      [("group", LongType); ("avg_calc", DoubleType);
       ("max_random", DoubleType); ("min_random", DoubleType);
       ("distinct_ids", LongType)]
  | FinalResults _ =>
      [("group", LongType); ("count", LongType); ("sum_calc", DoubleType);
       ("avg_random", DoubleType); ("max_row_num", LongType);
       ("std_dev", DoubleType)]
  end.

(** Reading a directory under a declared schema. A directory with other
    columns than the declared ones is rejected: the engine would fill the
    columns it does not find with nulls, which the typed rows of this model
    do not hold. *)
Definition read_as `{Numerics} (declared : struct_type) (file : Parquet)
  : string + list RawRow :=
  match file with
  | RawData rows =>
      if decide ((fun f => (field_name f, field_type f)) <$> declared
                 = columns file)
      then inr rows
      else inl "declared schema does not match the files"
  | _ => inl "declared schema does not match the files"
  end.

(** The reference store: a finite map from locations to directories. *)
Definition put_file `{Numerics} (mode : SaveMode) (path : string)
    (file : Parquet) (b : gmap string Parquet) : string + gmap string Parquet :=
  match mode, b !! path with
  | Overwrite, _ => inr (<[path := file]> b)
  | _, None => inr (<[path := file]> b)
  | Ignore, Some _ => inr b
  | ErrorIfExists, Some _ => inl "path already exists"
  | Append, Some old =>
      match old, file with
      | RawData r1, RawData r2 => inr (<[path := RawData (r1 ++ r2)]> b)
      | SqlResults r1, SqlResults r2 => inr (<[path := SqlResults (r1 ++ r2)]> b)
      | FinalResults r1, FinalResults r2 =>
          inr (<[path := FinalResults (r1 ++ r2)]> b)
      | _, _ => inl "cannot append: the columns differ"
      end
  end.

Definition get_file `{Numerics} (path : string) (b : gmap string Parquet)
  : string + Parquet :=
  match b !! path with
  | Some file => inr file
  | None => inl "path does not exist"
  end.

Definition map_store `{Numerics} : ObjectStore := {|
  Bucket := gmap string Parquet;
  put_object := put_file;
  get_object := get_file
|}.

(** ** The engine session and the job monad *)

Inductive Exception :=
| ValueError (msg : string)
| EngineError (msg : string).

Inductive SessionState := NoSession | Active | Stopped.

(** A handle on the session, as returned by [getOrCreate]. *)
Inductive SparkSession := Spark.

(** The calls that the job makes on the engine, and the lines it prints. *)
Inductive Event {N : Numerics} :=
| Print (line : string)
| GetOrCreate
| Range (a b : Z)
| WithColumn (name : string)
| Write (mode path : string)
| SetJobDescription (description : string)
| Count (result : Z)
| ReadParquet (declared : struct_type) (path : string)
| Persist
| Repartition (n : Z)
| GroupByAgg (key : string) (aliases : list string)
| BroadcastJoin (key : string)
| CreateOrReplaceTempView (name : string)
| Sql (view : string)
| OrderBy (key : string)
| Show (rows : list FinalRow)
| Stop.

(** A query on a registered view. *)
Record Query {N : Numerics} := mkQuery {
  from_view : string;
  eval_query : list RankedRow -> list SqlRow
}.
Arguments mkQuery {N}.

Section Job.
Context {N : Numerics} {S : ObjectStore}.

(** The state of the engine: the object store, the session, the
    driver's source of seeds for [rand()], and the session's views. *)
Record World := mkWorld {
  bucket : Bucket;
  session : SessionState;
  job_description : option string;
  seeds : nat -> Z;
  seeds_used : nat;
  views : gmap string (list RankedRow)
}.

(** A computation runs from a state of the engine to a result or an
    exception, the state it leaves, and the events it emitted. *)
Definition M (A : Type) : Type :=
  World -> (Exception + A) * World * list Event.

Definition ret {A} (x : A) : M A := fun w => (inr x, w, []).

Definition bind {A B} (c : M A) (k : A -> M B) : M B :=
  fun w =>
    match c w with
    | (inl e, w1, evs) => (inl e, w1, evs)
    | (inr x, w1, evs) =>
        let '(r, w2, evs') := k x w1 in (r, w2, (evs ++ evs')%list)
    end.

Definition raise {A} (e : Exception) : M A := fun w => (inl e, w, []).

Definition emit (evs : list Event) : M unit := fun w => (inr tt, w, evs).

Definition get_world : M World := fun w => (inr w, w, []).

Definition set_world (w : World) : M unit := fun _ => (inr tt, w, []).

#[local] Notation "x <- c ;; k" := (bind c (fun x => k))
  (at level 20, c at level 99, k at level 200, only parsing).
#[local] Notation "c ;;; k" := (bind c (fun _ => k))
  (at level 100, k at level 200, only parsing, right associativity).

Definition print (line : string) : M unit := emit [Print line].

(** [SparkSession.builder.getOrCreate()]. *)
Definition create_spark_session : M SparkSession :=
  emit [GetOrCreate];;;
  w <- get_world;;
  set_world (mkWorld (bucket w) Active (job_description w) (seeds w)
               (seeds_used w) (views w));;;
  ret Spark.

(** [spark.stop()]: the session ends and its views with it. *)
Definition stop (spark : SparkSession) : M unit :=
  emit [Stop];;;
  w <- get_world;;
  set_world (mkWorld (bucket w) Stopped (job_description w) (seeds w)
               (seeds_used w) ∅).

(** [spark.sparkContext.setJobDescription(d)]. *)
Definition setJobDescription (spark : SparkSession) (d : string) : M unit :=
  emit [SetJobDescription d];;;
  w <- get_world;;
  set_world (mkWorld (bucket w) (session w) (Some d) (seeds w)
               (seeds_used w) (views w)).

(** [rand()]: a column with a seed of its own, drawn by the driver. *)
Definition rand : M Z :=
  w <- get_world;;
  set_world (mkWorld (bucket w) (session w) (job_description w) (seeds w)
               (Datatypes.S (seeds_used w)) (views w));;;
  ret (seeds w (seeds_used w)).

(** [spark.range(a, b)]. *)
Definition spark_range (spark : SparkSession) (a b : Z) : M (list Z) :=
  emit [Range a b];;;
  ret (range a b).

(** A chain of transformations: the calls are recorded and the new
    dataframe is returned. *)
Definition transformation {A B} (calls : list Event) (f : A -> B) (df : A)
  : M B :=
  emit calls;;;
  ret (f df).

(** [df.count()]. *)
Definition count_rows {A} (df : list A) : M Z :=
  emit [Count (count df)];;;
  ret (count df).

(** [df.write.mode(mode).parquet(path)]. *)
Definition write_parquet (mode path : string) (file : Parquet) : M unit :=
  emit [Write mode path];;;
  match save_mode mode with
  | None => raise (EngineError "unknown save mode")
  | Some m =>
      w <- get_world;;
      match put_object m path file (bucket w) with
      | inl msg => raise (EngineError msg)
      | inr b =>
          set_world (mkWorld b (session w) (job_description w) (seeds w)
                       (seeds_used w) (views w))
      end
  end.

(** [spark.read.schema(declared).parquet(path)]. *)
Definition read_parquet (spark : SparkSession) (declared : struct_type)
    (path : string) : M (list RawRow) :=
  emit [ReadParquet declared path];;;
  w <- get_world;;
  match get_object path (bucket w) with
  | inl msg => raise (EngineError msg)
  | inr file =>
      match read_as declared file with
      | inl msg => raise (EngineError msg)
      | inr rows => ret rows
      end
  end.

(** [df.persist()]. *)
Definition persist {A} (df : list A) : M unit := emit [Persist].

(** [df.createOrReplaceTempView(name)]. *)
Definition createOrReplaceTempView (name : string) (df : list RankedRow)
  : M unit :=
  emit [CreateOrReplaceTempView name];;;
  w <- get_world;;
  set_world (mkWorld (bucket w) (session w) (job_description w) (seeds w)
               (seeds_used w) (<[name := df]> (views w))).

(** [spark.sql(q)]. *)
Definition sql (spark : SparkSession) (q : Query) : M (list SqlRow) :=
  emit [Sql (from_view q)];;;
  w <- get_world;;
  match views w !! from_view q with
  | None => raise (EngineError "table or view not found")
  | Some rows => ret (eval_query q rows)
  end.

(** [df.orderBy("group").show(n)]. *)
Definition show_ordered (n : nat) (df : list FinalRow) : M unit :=
  emit [OrderBy "group"; Show (show n (orderBy f_group df))].

(** The truth value of a string: only the empty string is false. *)
Definition truthy (s : string) : bool :=
  match s with
  | EmptyString => false
  | String _ _ => true
  end.

Definition newline : string := String "010"%char EmptyString.

Definition configuration_error : Exception :=
  ValueError
    "INPUT_PATH and OUTPUT_PATH must be set in the environment variables.".

Definition data_integrity_error : Exception :=
  ValueError
    "No data was read from the input path. Please check the S3 location.".

Definition complex_data_query : Query := mkQuery "complex_data" sql_query.

(** [run_complex_spark_job(input_path, output_path)]. *)
Definition run_complex_spark_job (input_path output_path : string) : M unit :=
  print ("Input path: " +:+ input_path);;;
  print ("Output path: " +:+ output_path);;;
  (if negb (truthy input_path) || negb (truthy output_path)
   then raise configuration_error
   else ret tt);;;
  spark <- create_spark_session;;
  print "Starting Spark History Demo Job ...";;;
  print "Creating initial dataset...";;;
  df <- spark_range spark 0 10000000;;
  seed <- rand;;
  df <- transformation [WithColumn "value"; WithColumn "group"]
          (with_value_and_group seed) df;;
  print ("Writing initial dataset to S3: " +:+ input_path +:+ "/raw_data");;;
  write_parquet "overwrite" (input_path +:+ "/raw_data") (RawData df);;;
  setJobDescription spark "Writing initial dataset";;;
  initial_count <- count_rows df;;
  print ("Initial dataset count: " +:+ pretty initial_count);;;
  print ("Reading dataset from S3: " +:+ input_path +:+ "/raw_data");;;
  df <- read_parquet spark schema (input_path +:+ "/raw_data");;
  read_count <- count_rows df;;
  print ("Read " +:+ pretty read_count +:+ " records from S3");;;
  (if decide (read_count = 0)
   then raise data_integrity_error
   else ret tt);;;
  print "Caching dataset...";;;
  persist df;;;
  count_rows df;;;
  print "Performing complex transformations...";;;
  seed <- rand;;
  df1 <- transformation
           [WithColumn "random"; WithColumn "group";
            WithColumn "complex_calc"; Repartition 200]
           (transform seed) df;;
  print "Performing aggregations...";;;
  df2 <- transformation
           [GroupByAgg "group" ["count"; "sum"; "avg"; "median"]]
           aggregate df1;;
  print "Performing joins...";;;
  df3 <- transformation [BroadcastJoin "group"]
           (fun df1 => join df1 (broadcast df2)) df1;;
  print "Calculating window functions...";;;
  df4 <- transformation
           [WithColumn "row_number"; WithColumn "rank";
            WithColumn "dense_rank"]
           (with_rankings window_spec) df3;;
  total <- count_rows df4;;
  print ("Total processed records: " +:+ pretty total);;;
  print "Performing SQL operations...";;;
  createOrReplaceTempView "complex_data" df4;;;
  sql_result <- sql spark complex_data_query;;
  print ("Writing SQL results to: " +:+ output_path +:+ "/sql_results");;;
  write_parquet "overwrite" (output_path +:+ "/sql_results")
    (SqlResults sql_result);;;
  print "Performing final aggregations...";;;
  final_result <- transformation
                    [Repartition 100;
                     GroupByAgg "group"
                       ["count"; "sum_calc"; "avg_random"; "max_row_num";
                        "std_dev"]]
                    final_aggregate df4;;
  print ("Writing final results to: " +:+ output_path +:+ "/final_results");;;
  write_parquet "overwrite" (output_path +:+ "/final_results")
    (FinalResults final_result);;;
  print (newline +:+ "Sample of final results:");;;
  show_ordered 5 final_result;;;
  final_count <- count_rows final_result;;
  print ("Final result count: " +:+ pretty final_count);;;
  print (newline +:+ "Job completed successfully!");;;
  print ("Results available at: " +:+ output_path);;;
  stop spark.

(** *** Runs and what is observed of them *)

Definition Result : Type := (Exception + unit) * World * list Event.

Definition outcome (r : Result) : Exception + unit := r.1.1.
Definition final (r : Result) : World := r.1.2.
Definition events (r : Result) : list Event := r.2.

(** The save mode and location of every write among the events. *)
Definition writes (evs : list Event) : list (string * string) :=
  omap (fun e => match e with
                 | Write mode path => Some (mode, path)
                 | _ => None
                 end) evs.

(** The results of the counts among the events. *)
Definition counts (evs : list Event) : list Z :=
  omap (fun e => match e with
                 | Count n => Some n
                 | _ => None
                 end) evs.

(** The dataset generated by a run that starts in [w]. *)
Definition generated (w : World) : list RawRow :=
  with_value_and_group (seeds w (seeds_used w)) (range 0 10000000).

(** [df4] of a run that starts in [w] and reloads [df]. *)
Definition ranked (w : World) (df : list RawRow) : list RankedRow :=
  let df1 := transform (seeds w (Datatypes.S (seeds_used w))) df in
  let df2 := aggregate df1 in
  let df3 := join df1 (broadcast df2) in
  with_rankings window_spec df3.

(** The events of the job up to the re-read of the raw data, where [df]
    is the generated dataset. *)
Definition trace_to_reload (input_path output_path : string)
    (df : list RawRow) : list Event :=
  [ Print ("Input path: " +:+ input_path);
    Print ("Output path: " +:+ output_path);
    GetOrCreate;
    Print "Starting Spark History Demo Job ...";
    Print "Creating initial dataset...";
    Range 0 10000000;
    WithColumn "value";
    WithColumn "group";
    Print ("Writing initial dataset to S3: " +:+ input_path +:+ "/raw_data");
    Write "overwrite" (input_path +:+ "/raw_data");
    SetJobDescription "Writing initial dataset";
    Count (count df);
    Print ("Initial dataset count: " +:+ pretty (count df));
    Print ("Reading dataset from S3: " +:+ input_path +:+ "/raw_data");
    ReadParquet schema (input_path +:+ "/raw_data") ].

(** The events of the verification of the re-read, where [df] is the
    reloaded dataset. *)
Definition trace_of_check (df : list RawRow) : list Event :=
  [ Count (count df);
    Print ("Read " +:+ pretty (count df) +:+ " records from S3") ].

(** The events of the job after the verification. *)
Definition trace_of_processing (output_path : string) (df : list RawRow)
    (df4 : list RankedRow) (sql_result : list SqlRow)
    (final_result : list FinalRow) : list Event :=
  [ Print "Caching dataset...";
    Persist;
    Count (count df);
    Print "Performing complex transformations...";
    WithColumn "random";
    WithColumn "group";
    WithColumn "complex_calc";
    Repartition 200;
    Print "Performing aggregations...";
    GroupByAgg "group" ["count"; "sum"; "avg"; "median"];
    Print "Performing joins...";
    BroadcastJoin "group";
    Print "Calculating window functions...";
    WithColumn "row_number";
    WithColumn "rank";
    WithColumn "dense_rank";
    Count (count df4);
    Print ("Total processed records: " +:+ pretty (count df4));
    Print "Performing SQL operations...";
    CreateOrReplaceTempView "complex_data";
    Sql "complex_data";
    Print ("Writing SQL results to: " +:+ output_path +:+ "/sql_results");
    Write "overwrite" (output_path +:+ "/sql_results");
    Print "Performing final aggregations...";
    Repartition 100;
    GroupByAgg "group"
      ["count"; "sum_calc"; "avg_random"; "max_row_num"; "std_dev"];
    Print ("Writing final results to: " +:+ output_path +:+ "/final_results");
    Write "overwrite" (output_path +:+ "/final_results");
    Print (newline +:+ "Sample of final results:");
    OrderBy "group";
    Show (show 5 (orderBy f_group final_result));
    Count (count final_result);
    Print ("Final result count: " +:+ pretty (count final_result));
    Print (newline +:+ "Job completed successfully!");
    Print ("Results available at: " +:+ output_path);
    Stop ].

(** A run that completes: the three writes succeed one after the other,
    the raw data is read back as [df] with at least one row, and the run
    leaves the state [w'] having emitted [evs]. *)
Record completed (input_path output_path : string) (w : World)
    (df : list RawRow) (w' : World) (evs : list Event) : Prop := {
  completed_input : input_path <> "";
  completed_output : output_path <> "";
  completed_raw : exists b1 b2 file,
    put_object Overwrite (input_path +:+ "/raw_data")
      (RawData (generated w)) (bucket w) = inr b1 /\
    get_object (input_path +:+ "/raw_data") b1 = inr file /\
    read_as schema file = inr df /\
    put_object Overwrite (output_path +:+ "/sql_results")
      (SqlResults (sql_query (ranked w df))) b1 = inr b2 /\
    put_object Overwrite (output_path +:+ "/final_results")
      (FinalResults (final_aggregate (ranked w df))) b2 = inr (bucket w');
  completed_rows : count df <> 0;
  completed_session : session w' = Stopped;
  completed_events :
    evs = (trace_to_reload input_path output_path (generated w)
           ++ trace_of_check df
           ++ trace_of_processing output_path df (ranked w df)
                (sql_query (ranked w df))
                (final_aggregate (ranked w df)))%list
}.

(** A store that returns what was last written to a location. *)
Class ReadYourWrites : Prop :=
  read_your_writes : forall path file b b',
    put_object Overwrite path file b = inr b' ->
    get_object path b' = inr file.

End Job.

Arguments World {N S}.
Arguments M {N S} A.
Arguments Result {N S}.
Arguments ReadYourWrites {N} S.

(** ** Degraded stores *)

(** A store that is not reachable: every operation fails. *)
Definition unavailable_store `{Numerics} : ObjectStore := {|
  Bucket := unit;
  put_object _ _ _ _ := inl "service unavailable";
  get_object _ _ := inl "service unavailable"
|}.

(** A store that accepts every write and lists no data file on reading. *)
Definition purged_store `{Numerics} : ObjectStore := {|
  Bucket := unit;
  put_object _ _ _ b := inr b;
  get_object _ _ := inr (RawData [])
|}.

(** A store that accepts every write and, on reading, lists the single
    row that another writer left at the location. *)
Definition stale_store `{Numerics} : ObjectStore := {|
  Bucket := unit;
  put_object _ _ _ b := inr b;
  get_object _ _ := inr (RawData [mkRaw 0 (of_long 0) 0])
|}.

(** A state of the engine before any session: an empty bucket of the
    reference store, no view, and the seeds 0, 1, 2, ... *)
Definition fresh_world `{Numerics} : @World _ map_store :=
  @mkWorld _ map_store ∅ NoSession None Z.of_nat 0%nat ∅.

Definition unreachable_world `{Numerics} : @World _ unavailable_store :=
  @mkWorld _ unavailable_store () NoSession None Z.of_nat 0%nat ∅.

Definition purged_world `{Numerics} : @World _ purged_store :=
  @mkWorld _ purged_store () NoSession None Z.of_nat 0%nat ∅.

Definition stale_world `{Numerics} : @World _ stale_store :=
  @mkWorld _ stale_store () NoSession None Z.of_nat 0%nat ∅.

(** A store on which a policy denies some writes and some reads: the
    reference store behind an access check. *)
Definition guarded_store `{Numerics} (deny_put deny_get : string -> bool)
  : ObjectStore := {|
  Bucket := gmap string Parquet;
  put_object mode path file b :=
    if deny_put path then inl "access denied" else put_file mode path file b;
  get_object path b :=
    if deny_get path then inl "access denied" else get_file path b
|}.

Definition guarded_world `{Numerics} (deny_put deny_get : string -> bool)
  : @World _ (guarded_store deny_put deny_get) :=
  @mkWorld _ (guarded_store deny_put deny_get) ∅ NoSession None Z.of_nat
    0%nat ∅.

(** The sum of a column of longs. *)
Definition sum_long (l : list Z) : Z := foldr Z.add 0 l.

(** The last character of a location. *)
Fixpoint last_char (s : string) : option ascii :=
  match s with
  | EmptyString => None
  | String c EmptyString => Some c
  | String _ rest => last_char rest
  end.

(** ** Three statements of the specification, as it words them *)

(** "The session must be released on every exit path": a run that acquired
    the session has stopped it when it exits. *)
Definition releases_session {N : Numerics} {S : ObjectStore} (r : Result)
  : Prop :=
  GetOrCreate ∈ events r -> Stop ∈ events r /\ session (final r) = Stopped.

(** "Each field is declared not null". *)
Definition all_not_null (declared : struct_type) : Prop :=
  Forall (fun f => nullable f = false) declared.

(** "read_count = initial_count for every successful run": when the run
    completes, the first two counts that it took, [initial_count] and
    [read_count], are equal. *)
Definition reload_preserves_count {N : Numerics} {S : ObjectStore}
    (r : Result) : Prop :=
  outcome r = inr tt ->
  exists initial_count read_count rest,
    counts (events r) = initial_count :: read_count :: rest /\
    read_count = initial_count.

(** * Properties *)

(** ** Lists *)

Lemma Permutation_of_eq {A} (l k : list A) : l = k -> l ≡ₚ k.
Proof. by intros ->. Qed.

Lemma fmap_bind_list {A B C} (g : B -> C) (f : A -> list B) (l : list A) :
  g <$> (l ≫= f) = l ≫= (fun x => g <$> f x).
Proof.
  induction l as [|x l IH]; [done|]. by rewrite !bind_cons, fmap_app, IH.
Qed.

Lemma bind_Permutation_ext {A B} (f g : A -> list B) (l : list A) :
  (forall x, x ∈ l -> f x ≡ₚ g x) -> l ≫= f ≡ₚ l ≫= g.
Proof.
  induction l as [|x l IH]; intros Hfg; [done|]. rewrite !bind_cons.
  f_equiv; [apply Hfg; left|]. apply IH. intros y Hy. apply Hfg. by right.
Qed.

Lemma filter_fmap_list {A B} (f : A -> B) (P : B -> Prop)
    `{!forall y, Decision (P y)} (l : list A) :
  filter P (f <$> l) = f <$> filter (fun x => P (f x)) l.
Proof.
  induction l as [|x l IH]; [done|]. rewrite fmap_cons, !filter_cons.
  destruct (decide (P (f x))); by rewrite ?fmap_cons, IH.
Qed.

Lemma filter_none {A} (P : A -> Prop) `{!forall x, Decision (P x)} (l : list A) :
  (forall x, x ∈ l -> ~ P x) -> filter P l = [].
Proof.
  induction l as [|x l IH]; intros Hno; [done|].
  rewrite filter_cons_False by (apply Hno; left).
  apply IH. intros y Hy. apply Hno. by right.
Qed.

Lemma filter_all {A} (P : A -> Prop) `{!forall x, Decision (P x)} (l : list A) :
  (forall x, x ∈ l -> P x) -> filter P l = l.
Proof.
  induction l as [|x l IH]; intros Hall; [done|].
  rewrite filter_cons_True by (apply Hall; left).
  f_equal. apply IH. intros y Hy. apply Hall. by right.
Qed.

Lemma append_cancel (o a b : string) : o +:+ a = o +:+ b -> a = b.
Proof. induction o as [|c o IH]; [done|]. simpl. intros [= H]. auto. Qed.

Lemma last_char_append (s t : string) :
  t <> "" -> last_char (s +:+ t) = last_char t.
Proof.
  intros Ht. induction s as [|c s IH]; [done|]. simpl. rewrite <- IH.
  destruct (s +:+ t) eqn:E; [|done].
  destruct s; simpl in E; [by subst|discriminate].
Qed.

(** The three locations that the job writes are pairwise distinct,
    whatever the two paths. *)
Lemma locations_distinct (i o : string) :
  NoDup [i +:+ "/raw_data"; o +:+ "/sql_results"; o +:+ "/final_results"].
Proof.
  assert (forall a b, last_char a <> last_char b -> a <> b) as Hlast
    by (intros a b Hne ->; done).
  repeat constructor; rewrite ?not_elem_of_cons; repeat split;
    try apply not_elem_of_nil.
  - apply Hlast. by rewrite !last_char_append.
  - apply Hlast. by rewrite !last_char_append.
  - by intros ?%append_cancel.
Qed.

Section Keys.
Context {A : Type}.
Implicit Types (key : A -> Z) (df : list A).

Lemma filter_key_fmap key (g : Z) df :
  filter (fun k => k = g) (key <$> df) = key <$> filter (fun r => key r = g) df.
Proof.
  induction df as [|x df IH]; [done|]. rewrite fmap_cons, !filter_cons.
  destruct (decide (key x = g)); by rewrite ?fmap_cons, IH.
Qed.

(** Splitting a dataframe by the values of a key loses no row and adds
    none. *)
Lemma partition_by_key key (keys : list Z) df :
  NoDup keys -> (forall r, r ∈ df -> key r ∈ keys) ->
  (keys ≫= fun g => filter (fun r => key r = g) df) ≡ₚ df.
Proof.
  intros Hnd. revert df. induction Hnd as [|k keys Hk Hnd IH]; intros df Hin.
  - destruct df as [|r df]; [done|].
    specialize (Hin r ltac:(left)). by apply elem_of_nil in Hin.
  - rewrite bind_cons.
    etrans; [|apply (filter_app_complement (fun r => key r = k) df)].
    f_equiv.
    assert (keys ≫= (fun g => filter (fun r => key r = g) df)
            = keys ≫= (fun g => filter (fun r => key r = g)
                                  (filter (fun r => key r <> k) df))) as ->.
    { apply Forall_bind_ext, Forall_forall.
      intros g Hg. rewrite list_filter_filter. apply list_filter_iff.
      intros r. split; [|tauto]. intros ->. split; [done|]. by intros ->. }
    apply IH. intros r [Hne Hr]%list_elem_of_filter.
    specialize (Hin r Hr). apply elem_of_cons in Hin as [?|?]; done.
Qed.

(** Where the keys are pairwise distinct, a key selects one row. *)
Lemma filter_unique key df (x : A) :
  NoDup (key <$> df) -> x ∈ df -> filter (fun a => key a = key x) df = [x].
Proof.
  induction df as [|y df IH]; intros Hnd Hx; [by apply elem_of_nil in Hx|].
  rewrite fmap_cons in Hnd. apply NoDup_cons in Hnd as [Hy Hnd].
  apply elem_of_cons in Hx as [->|Hx].
  - rewrite filter_cons_True by done. f_equal. apply filter_none.
    intros r Hr Heq. apply Hy. rewrite <- Heq. by apply list_elem_of_fmap_2.
  - rewrite filter_cons_False; [by apply IH|].
    intros Heq. apply Hy. rewrite Heq. by apply list_elem_of_fmap_2.
Qed.

Lemma groupBy_keys key df : fst <$> groupBy key df = remove_dups (key <$> df).
Proof.
  unfold groupBy. rewrite <- list_fmap_compose.
  etrans; [|apply list_fmap_id]. by apply list_fmap_ext.
Qed.

Lemma elem_of_groupBy key df g rows :
  (g, rows) ∈ groupBy key df <->
  g ∈ key <$> df /\ rows = filter (fun r => key r = g) df.
Proof.
  unfold groupBy. rewrite list_elem_of_fmap. setoid_rewrite elem_of_remove_dups.
  split.
  - intros (g' & [= -> ->] & Hg). done.
  - intros [Hg ->]. by exists g.
Qed.

Lemma group_size_keys key g df :
  group_size key g df = Z.of_nat (length (filter (fun k => k = g) (key <$> df))).
Proof. unfold group_size, count. by rewrite filter_key_fmap, length_fmap. Qed.

End Keys.

Lemma length_filter_unique (keys : list Z) (g : Z) :
  NoDup keys -> g ∈ keys -> length (filter (fun k => k = g) keys) = 1%nat.
Proof.
  intros Hnd Hg.
  assert (H := filter_unique id keys g). rewrite list_fmap_id in H.
  unfold id in H. by rewrite H.
Qed.

Lemma group_size_Permutation {A B} (k1 : A -> Z) (k2 : B -> Z) g df1 df2 :
  k1 <$> df1 ≡ₚ k2 <$> df2 -> group_size k1 g df1 = group_size k2 g df2.
Proof. intros H. rewrite !group_size_keys. by rewrite H. Qed.

(** ** The dataframes of the pipeline *)

Section Pipeline.
Context {N : Numerics}.

Lemma count_range a b : a <= b -> count (range a b) = b - a.
Proof. intros. unfold count, range. rewrite length_seqZ. lia. Qed.

Lemma generated_ids seed l : raw_id <$> with_value_and_group seed l = l.
Proof.
  apply list_eq. intros i. unfold with_value_and_group.
  rewrite list_lookup_fmap, list_lookup_imap. by destruct (l !! i).
Qed.

Lemma generated_groups seed l :
  raw_group <$> with_value_and_group seed l = (fun i => spark_mod i 1000) <$> l.
Proof.
  apply list_eq. intros i. unfold with_value_and_group.
  rewrite !list_lookup_fmap, list_lookup_imap. by destruct (l !! i).
Qed.

Lemma count_generated seed l : count (with_value_and_group seed l) = count l.
Proof. unfold count, with_value_and_group. by rewrite length_imap. Qed.

(** The transformation recomputes [group] from [id]. *)
Lemma transform_groups seed df :
  t_group <$> transform seed df = (fun r => spark_mod (raw_id r) 1000) <$> df.
Proof.
  apply list_eq. intros i. unfold transform, repartition.
  rewrite !list_lookup_fmap, list_lookup_imap. by destruct (df !! i).
Qed.

(** The aggregation has one row per group. *)
Lemma aggregate_groups df1 :
  a_group <$> aggregate df1 = remove_dups (t_group <$> df1).
Proof.
  unfold aggregate. rewrite <- list_fmap_compose, <- groupBy_keys.
  apply list_fmap_ext. by intros i [g rows] _.
Qed.

Lemma join_groups_in df1 l :
  (forall r, r ∈ l -> r ∈ df1) ->
  j_group <$> join l (broadcast (aggregate df1)) = t_group <$> l.
Proof.
  unfold join, broadcast. induction l as [|r l IH]; intros Hin; [done|].
  rewrite bind_cons, fmap_app, IH by (intros; apply Hin; by right).
  rewrite fmap_cons. change (?x :: ?l) with ([x] ++ l)%list at 2. f_equal.
  assert (t_group r ∈ a_group <$> aggregate df1) as Hg.
  { rewrite aggregate_groups, elem_of_remove_dups.
    apply list_elem_of_fmap_2, Hin. left. }
  apply list_elem_of_fmap in Hg as (a & Ha & Hin').
  rewrite Ha, (filter_unique a_group (aggregate df1) a); [done| |done].
  rewrite aggregate_groups. apply NoDup_remove_dups.
Qed.

(** Joining the dataset with its own aggregation keeps every row once. *)
Lemma join_groups df1 :
  j_group <$> join df1 (broadcast (aggregate df1)) = t_group <$> df1.
Proof. by apply join_groups_in. Qed.

Lemma ranked_rows_base (a b c : nat -> JoinedRow -> Z) rows :
  r_base <$> imap (fun pos r => mkRanked r (a pos r) (b pos r) (c pos r)) rows
  = rows.
Proof.
  apply list_eq. intros i.
  rewrite list_lookup_fmap, list_lookup_imap. by destruct (rows !! i).
Qed.

(** The window functions add columns: the rows are those of [df3]. *)
Lemma with_rankings_rows w df3 : r_base <$> with_rankings w df3 ≡ₚ df3.
Proof.
  unfold with_rankings. rewrite fmap_bind_list.
  etrans; [|apply (partition_by_key (partition_by w)
                     (remove_dups (partition_by w <$> df3)))].
  - apply bind_Permutation_ext. intros g _.
    rewrite (ranked_rows_base (fun pos _ => row_number pos)).
    apply merge_sort_Permutation.
  - apply NoDup_remove_dups.
  - intros r Hr. by apply elem_of_remove_dups, list_elem_of_fmap_2.
Qed.

Lemma with_rankings_groups df3 :
  r_group <$> with_rankings window_spec df3 ≡ₚ j_group <$> df3.
Proof.
  rewrite <- (with_rankings_rows window_spec df3) at 2.
  by rewrite <- list_fmap_compose.
Qed.

(** [final_result] has one row per group of [df4]. *)
Lemma final_aggregate_groups df4 :
  f_group <$> final_aggregate df4 = remove_dups (r_group <$> df4).
Proof.
  unfold final_aggregate, repartition.
  rewrite <- list_fmap_compose, <- groupBy_keys.
  apply list_fmap_ext. by intros i [g rows] _.
Qed.

Lemma elem_of_final_aggregate df4 f :
  f ∈ final_aggregate df4 ->
  f_group f ∈ r_group <$> df4 /\ f_count f = group_size r_group (f_group f) df4.
Proof.
  unfold final_aggregate, repartition.
  intros ([g rows] & -> & [Hg ->]%elem_of_groupBy)%list_elem_of_fmap. done.
Qed.

(** [sql_result] has one row per group of [df4] that passes the HAVING
    filter. *)
Lemma sql_query_groups df4 :
  s_group <$> sql_query df4
  ≡ₚ filter (fun g => 100 < group_size r_group g df4)
       (remove_dups (r_group <$> df4)).
Proof.
  unfold sql_query, orderBy. rewrite merge_sort_Permutation.
  rewrite <- list_fmap_compose. unfold groupBy.
  rewrite filter_fmap_list, <- list_fmap_compose.
  apply Permutation_of_eq. etrans; [|apply list_fmap_id].
  by apply list_fmap_ext.
Qed.

(** [ORDER BY group]: the rows of [sql_result] come by increasing group. *)
Lemma sql_query_ordered df4 : Sorted Z.le (s_group <$> sql_query df4).
Proof.
  unfold sql_query, orderBy.
  apply (Sorted_fmap s_group (key_le s_group) Z.le); [done|].
  apply Sorted_merge_sort. intros x y. unfold key_le. lia.
Qed.

End Pipeline.

(** ** The groups of [spark.range(0, 1000 * k)] *)

Lemma rem_block (k : Z) :
  0 <= k ->
  (fun i => spark_mod i 1000) <$> seqZ (1000 * k) 1000 = seqZ 0 1000.
Proof.
  intros Hk.
  assert (seqZ (1000 * k) 1000 = Z.add (1000 * k) <$> seqZ 0 1000) as ->
    by (rewrite fmap_add_seqZ; f_equal; lia).
  rewrite <- list_fmap_compose. etrans; [|apply list_fmap_id].
  apply list_fmap_ext. intros i j [-> Hj]%lookup_seqZ. unfold spark_mod. simpl.
  rewrite Z.rem_mod_nonneg by lia.
  rewrite Z.add_comm, Z.mul_comm, Z.mod_add by lia. apply Z.mod_small. lia.
Qed.

(** The group column of the range is [0 .. 999] repeated [k] times. *)
Lemma range_groups (k : nat) :
  (fun i => spark_mod i 1000) <$> range 0 (1000 * Z.of_nat k)
  = Nat.iter k (fun l => l ++ seqZ 0 1000)%list [].
Proof.
  unfold range. rewrite Z.sub_0_r. induction k as [|k IH]; [done|].
  replace (1000 * Z.of_nat (S k)) with (1000 * Z.of_nat k + 1000) by lia.
  rewrite seqZ_app, fmap_app, IH by lia. simpl. f_equal.
  rewrite Z.add_0_l. apply rem_block. lia.
Qed.

Lemma group_size_range (k : nat) (g : Z) :
  0 <= g < 1000 ->
  length (filter (fun x => x = g)
            ((fun i => spark_mod i 1000) <$> range 0 (1000 * Z.of_nat k)))
  = k.
Proof.
  intros Hg. rewrite range_groups. induction k as [|k IH]; [done|].
  simpl. rewrite filter_app, length_app, IH.
  rewrite length_filter_unique; [lia|apply NoDup_seqZ|].
  apply elem_of_seqZ. lia.
Qed.

Lemma elem_of_range_groups (k : nat) (g : Z) :
  (0 < k)%nat ->
  g ∈ (fun i => spark_mod i 1000) <$> range 0 (1000 * Z.of_nat k)
  <-> 0 <= g < 1000.
Proof.
  intros Hk. rewrite range_groups. induction k as [|k IH]; [lia|].
  simpl. rewrite elem_of_app, elem_of_seqZ. destruct k as [|k].
  - simpl. rewrite elem_of_nil. lia.
  - rewrite IH by lia. lia.
Qed.

Lemma Sorted_seqZ (m n : Z) : Sorted Z.le (seqZ m n).
Proof.
  remember (Z.to_nat n) as k eqn:Hk. revert m n Hk.
  induction k as [|k IH]; intros m n Hk.
  - rewrite seqZ_nil by lia. constructor.
  - rewrite seqZ_cons by lia. constructor; [apply IH; lia|].
    destruct (decide (0 < Z.pred n)).
    + rewrite seqZ_cons by done. constructor. lia.
    + rewrite seqZ_nil by lia. constructor.
Qed.

(** ** Running the job *)

Lemma save_mode_overwrite : save_mode "overwrite" = Some Overwrite.
Proof. reflexivity. Qed.

Lemma truthy_nonempty s : s <> "" -> truthy s = true.
Proof. by destruct s. Qed.

Lemma read_as_schema {N : Numerics} (rows : list RawRow) :
  read_as schema (RawData rows) = inr rows.
Proof. reflexivity. Qed.

(** Unfolding of the job down to the calls on the store; the dataframes
    are left as they are. *)
Ltac run_unfold :=
  cbv beta iota zeta delta
    [run_complex_spark_job bind ret raise emit get_world set_world print
     create_spark_session stop setJobDescription rand spark_range
     transformation count_rows write_parquet read_parquet persist
     createOrReplaceTempView sql show_ordered
     bucket session job_description seeds seeds_used views
     app complex_data_query from_view eval_query negb orb].

(** One step of a run: a case analysis on the next answer of the store,
    where [tac] settles the case of a failure. *)
Ltac run_step tac :=
  match goal with
  | |- context [match put_object ?m ?p ?f ?b with _ => _ end] =>
      let H := fresh "Hput" in destruct (put_object m p f b) eqn:H; [tac|]
  | |- context [match get_object ?p ?b with _ => _ end] =>
      let H := fresh "Hget" in destruct (get_object p b) eqn:H; [tac|]
  | |- context [match read_as ?p ?b with _ => _ end] =>
      let H := fresh "Hread" in destruct (read_as p b) eqn:H; [tac|]
  | |- context [match decide ?P with _ => _ end] =>
      let H := fresh "Hrows" in destruct (decide P) as [H|H]; [tac|]
  | |- context [<[?k:=?v]> ?m !! ?k] => rewrite (lookup_insert_eq m k v)
  end; run_unfold.

Ltac not_in_events :=
  repeat (apply not_elem_of_cons; split; [discriminate|]); apply not_elem_of_nil.

Ltac observe := cbv [outcome events final fst snd]; cbn [session].

Section Exits.
Context {N : Numerics} {S : ObjectStore}.
Implicit Types (w : World) (evs : list Event).

Lemma count_generated_rows w : count (generated w) = 10000000.
Proof. unfold generated. by rewrite count_generated, count_range. Qed.

(** The exit on an empty path. *)
Lemma run_empty_path i o w :
  i = "" \/ o = "" ->
  run_complex_spark_job i o w
  = (inl configuration_error, w,
     [Print ("Input path: " +:+ i); Print ("Output path: " +:+ o)]).
Proof.
  intros Hempty. unfold run_complex_spark_job.
  assert (negb (truthy i) || negb (truthy o) = true) as ->.
  { destruct Hempty as [-> | ->]; [done|]. by destruct (truthy i). }
  by run_unfold.
Qed.

(** The exit on a failure of the first write. *)
Lemma run_raw_write_fails i o w msg :
  i <> "" -> o <> "" ->
  put_object Overwrite (i +:+ "/raw_data") (RawData (generated w)) (bucket w)
  = inl msg ->
  run_complex_spark_job i o w
  = (inl (EngineError msg),
     mkWorld (bucket w) Active (job_description w) (seeds w)
       (Datatypes.S (seeds_used w)) (views w),
     take 10 (trace_to_reload i o (generated w))).
Proof.
  intros Hi Ho Hraw. destruct w as [b ss jd sd su vw].
  unfold generated in *. cbn [bucket seeds seeds_used] in *.
  unfold run_complex_spark_job, write_parquet.
  rewrite !truthy_nonempty, save_mode_overwrite by done. run_unfold.
  rewrite Hraw. by run_unfold.
Qed.

(** The exit on an empty re-read. *)
Lemma run_zero_rows i o w b1 file :
  i <> "" -> o <> "" ->
  put_object Overwrite (i +:+ "/raw_data") (RawData (generated w)) (bucket w)
  = inr b1 ->
  get_object (i +:+ "/raw_data") b1 = inr file ->
  read_as schema file = inr [] ->
  run_complex_spark_job i o w
  = (inl data_integrity_error,
     mkWorld b1 Active (Some "Writing initial dataset") (seeds w)
       (Datatypes.S (seeds_used w)) (views w),
     (trace_to_reload i o (generated w) ++ trace_of_check [])%list).
Proof.
  intros Hi Ho Hraw Hget Hread. destruct w as [b ss jd sd su vw].
  unfold generated in *. cbn [bucket seeds seeds_used] in *.
  unfold run_complex_spark_job, write_parquet.
  rewrite !truthy_nonempty, save_mode_overwrite by done. run_unfold.
  rewrite Hraw. run_unfold. rewrite Hget. run_unfold. rewrite Hread.
  by run_unfold.
Qed.

(** A run that completes went through the three writes and the re-read. *)
Lemma run_completed i o w w' evs :
  run_complex_spark_job i o w = (inr tt, w', evs) ->
  exists df, completed i o w df w' evs.
Proof.
  destruct (decide (i = "")) as [->|Hi];
    [by rewrite run_empty_path by auto|].
  destruct (decide (o = "")) as [->|Ho];
    [by rewrite run_empty_path by auto|].
  destruct w as [b ss jd sd su vw].
  unfold run_complex_spark_job, write_parquet.
  rewrite !truthy_nonempty, save_mode_overwrite by done. run_unfold.
  repeat run_step discriminate.
  intros [= <- <-]. eexists. split; try done.
  eauto 10.
Qed.

(** Conversely, the run completes when the store answers each call. *)
Lemma run_completes i o w df b1 b2 b3 file :
  i <> "" -> o <> "" ->
  put_object Overwrite (i +:+ "/raw_data") (RawData (generated w)) (bucket w)
  = inr b1 ->
  get_object (i +:+ "/raw_data") b1 = inr file ->
  read_as schema file = inr df ->
  count df <> 0 ->
  put_object Overwrite (o +:+ "/sql_results")
    (SqlResults (sql_query (ranked w df))) b1 = inr b2 ->
  put_object Overwrite (o +:+ "/final_results")
    (FinalResults (final_aggregate (ranked w df))) b2 = inr b3 ->
  run_complex_spark_job i o w
  = (inr tt,
     mkWorld b3 Stopped (Some "Writing initial dataset") (seeds w)
       (Datatypes.S (Datatypes.S (seeds_used w))) ∅,
     (trace_to_reload i o (generated w) ++ trace_of_check df
      ++ trace_of_processing o df (ranked w df) (sql_query (ranked w df))
           (final_aggregate (ranked w df)))%list).
Proof.
  intros Hi Ho Hraw Hget Hread Hrows Hsql Hfinal.
  destruct w as [b ss jd sd su vw].
  unfold generated, ranked in *. cbn [bucket seeds seeds_used] in *.
  unfold run_complex_spark_job, write_parquet.
  rewrite !truthy_nonempty, save_mode_overwrite by done. run_unfold.
  rewrite Hraw. run_unfold. rewrite Hget. run_unfold. rewrite Hread.
  run_unfold. rewrite decide_False by done. run_unfold.
  rewrite lookup_insert_eq. run_unfold.
  unfold broadcast in *. rewrite Hsql. run_unfold. rewrite Hfinal.
  by run_unfold.
Qed.

(** The groups of [df4] are those that the transformation derives from the
    ids of the reloaded dataset. *)
Lemma ranked_groups w df :
  r_group <$> ranked w df ≡ₚ (fun r => spark_mod (raw_id r) 1000) <$> df.
Proof.
  unfold ranked. by rewrite with_rankings_groups, join_groups, transform_groups.
Qed.

Lemma generated_groups_range w :
  (fun r => spark_mod (raw_id r) 1000) <$> generated w
  = (fun i => spark_mod i 1000) <$> range 0 (1000 * Z.of_nat (Z.to_nat 10000)).
Proof.
  unfold generated.
  change (fun r => spark_mod (raw_id r) 1000)
    with ((fun i => spark_mod i 1000) ∘ raw_id).
  rewrite list_fmap_compose, generated_ids. do 2 f_equal; lia.
Qed.

Lemma elem_of_ranked_groups w g :
  g ∈ r_group <$> ranked w (generated w) <-> 0 <= g < 1000.
Proof.
  rewrite ranked_groups, generated_groups_range.
  apply elem_of_range_groups. lia.
Qed.

Lemma group_size_ranked w g :
  0 <= g < 1000 -> group_size r_group g (ranked w (generated w)) = 10000.
Proof.
  intros Hg.
  rewrite (group_size_Permutation r_group
             (fun r => spark_mod (raw_id r) 1000) g _ (generated w))
    by apply ranked_groups.
  rewrite group_size_keys, generated_groups_range, group_size_range by done.
  lia.
Qed.

Lemma final_groups_reference w :
  f_group <$> final_aggregate (ranked w (generated w)) ≡ₚ seqZ 0 1000.
Proof.
  rewrite final_aggregate_groups.
  apply NoDup_Permutation; [apply NoDup_remove_dups|apply NoDup_seqZ|].
  intros g. rewrite elem_of_remove_dups, elem_of_ranked_groups, elem_of_seqZ.
  lia.
Qed.

Lemma sql_groups_reference w :
  s_group <$> sql_query (ranked w (generated w)) ≡ₚ seqZ 0 1000.
Proof.
  etrans; [apply sql_query_groups|].
  etrans; [|apply (final_groups_reference w)].
  rewrite final_aggregate_groups. apply Permutation_of_eq, filter_all.
  intros g Hg. rewrite elem_of_remove_dups in Hg.
  apply (proj1 (elem_of_ranked_groups w g)) in Hg.
  rewrite (group_size_ranked w g Hg). lia.
Qed.

(** With the order of the query, the groups of [sql_result] are 0, 1, ...,
    999. *)
Lemma sql_groups_reference_ordered w :
  s_group <$> sql_query (ranked w (generated w)) = seqZ 0 1000.
Proof.
  apply (Sorted_unique Z.le);
    [apply sql_query_ordered|apply Sorted_seqZ|apply sql_groups_reference].
Qed.

End Exits.

(** ** The reference store *)

Section Reference.
Context {N : Numerics}.
Implicit Types (w : @World N map_store) (b : gmap string Parquet).

Lemma get_file_insert path file b :
  get_object (ObjectStore := map_store) path (<[path := file]> b) = inr file.
Proof. cbn. unfold get_file. by rewrite lookup_insert_eq. Qed.

Lemma get_file_insert_ne path path' file b :
  path <> path' ->
  get_object (ObjectStore := map_store) path' (<[path := file]> b)
  = get_object (ObjectStore := map_store) path' b.
Proof. intros. cbn. unfold get_file. by rewrite lookup_insert_ne. Qed.

(** The reference store returns what was last written to a location. *)
#[global] Instance map_store_read_your_writes : ReadYourWrites map_store.
Proof. intros path file b b' [= <-]. apply get_file_insert. Qed.

Lemma sql_path_ne_final_path (o : string) :
  o +:+ "/final_results" <> o +:+ "/sql_results".
Proof. by intros ?%append_cancel. Qed.

(** On the reference store the job completes whenever both paths are
    given, and this is what it leaves. *)
Lemma run_reference i o w :
  i <> "" -> o <> "" ->
  run_complex_spark_job i o w
  = (inr tt,
     mkWorld
       (<[o +:+ "/final_results" :=
            FinalResults (final_aggregate (ranked w (generated w)))]>
          (<[o +:+ "/sql_results" :=
               SqlResults (sql_query (ranked w (generated w)))]>
             (<[i +:+ "/raw_data" := RawData (generated w)]> (bucket w))))
       Stopped (Some "Writing initial dataset") (seeds w)
       (Datatypes.S (Datatypes.S (seeds_used w))) ∅,
     (trace_to_reload i o (generated w) ++ trace_of_check (generated w)
      ++ trace_of_processing o (generated w) (ranked w (generated w))
           (sql_query (ranked w (generated w)))
           (final_aggregate (ranked w (generated w))))%list).
Proof.
  intros Hi Ho.
  eapply (run_completes (S := map_store) i o w (generated w));
    [done|done|reflexivity| |apply read_as_schema| |reflexivity|reflexivity].
  - apply get_file_insert.
  - by rewrite count_generated_rows.
Qed.

End Reference.

(** ** Small runs of the dataframe operations *)

(** [%] keeps the sign of the dividend. *)
Example spark_mod_negative : spark_mod (-3) 1000 = -3 /\ spark_mod 2003 1000 = 3.
Proof. split; reflexivity. Qed.

(** Ranks with ties. *)
Example ranks_with_ties :
  let keys : list (@Double integer_numerics) := [1; 1; 2; 3; 3; 4] in
  rank keys 3 = 4 /\ dense_rank keys 3 = 3 /\ rank keys 1 = 1.
Proof. repeat split; reflexivity. Qed.

(** A dataset with 101 rows in group 0 and one row in group 1: the query
    keeps group 0 only, the final aggregation keeps both. *)
Example having_filter_on_a_small_dataset :
  let df := with_value_and_group (N := integer_numerics) 5
              (((fun k => 1000 * k) <$> seqZ 0 101) ++ [1])%list in
  let df4 := ranked (S := map_store) fresh_world df in
  s_group <$> sql_query df4 = [0] /\
  (fun f => (f_group f, f_count f)) <$> final_aggregate df4 = [(0, 101); (1, 1)].
Proof. split; vm_compute; reflexivity. Qed.

(** Two seeds give different values on the first row of the generated
    dataset, and the same id and group. *)
Example generated_first_row :
  with_value_and_group (N := integer_numerics) 1 (range 0 3) !! 0%nat
  = Some (mkRaw (N := integer_numerics) 0 31 0) /\
  with_value_and_group (N := integer_numerics) 2 (range 0 3) !! 0%nat
  = Some (mkRaw (N := integer_numerics) 0 62 0).
Proof. split; reflexivity. Qed.

(** * The claims of the specification *)

Section Claims.
Context {N : Numerics} {S : ObjectStore}.
Implicit Types (w : World) (evs : list Event).

(** C1. On every pair of non-empty paths on which the run completes, the
    job issues exactly three writes, in overwrite mode, to
    [{input_path}/raw_data], [{output_path}/sql_results] and
    [{output_path}/final_results], and no other: these are all the write
    events of the run, the three locations are pairwise distinct, and the
    store it leaves is the initial one after three successful writes at
    these locations. *)
Theorem writes_exactly_three_datasets i o w w' evs :
  i <> "" -> o <> "" ->
  run_complex_spark_job i o w = (inr tt, w', evs) ->
  writes evs = [("overwrite", i +:+ "/raw_data");
                ("overwrite", o +:+ "/sql_results");
                ("overwrite", o +:+ "/final_results")]
  /\ NoDup (snd <$> writes evs)
  /\ exists raw sql_result final_result b1 b2,
       put_object Overwrite (i +:+ "/raw_data") (RawData raw) (bucket w)
       = inr b1 /\
       put_object Overwrite (o +:+ "/sql_results") (SqlResults sql_result) b1
       = inr b2 /\
       put_object Overwrite (o +:+ "/final_results")
         (FinalResults final_result) b2 = inr (bucket w').
Proof.
  intros _ _ [df [_ _ (b1 & b2 & file & Hraw & _ & _ & Hsql & Hfinal) _ _ ->]]
    %run_completed.
  split; [reflexivity|]. split; [apply locations_distinct|]. eauto 10.
Qed.

(** C2, as amended. [spark.stop()] is executed exactly when the run
    completes: it is then the last event and the session is left stopped.
    On an error exit no stop is issued: with an empty path the session was
    never acquired and the engine is left as it was, on every other error
    exit the session was acquired and is left active. *)
Theorem session_released_exactly_on_completion i o w :
  let r := run_complex_spark_job i o w in
  match outcome r with
  | inr _ => last (events r) = Some Stop /\ session (final r) = Stopped
  | inl _ =>
      (Stop ∉ events r) /\
      (if truthy i && truthy o
       then GetOrCreate ∈ events r /\ session (final r) = Active
       else (GetOrCreate ∉ events r) /\ final r = w)
  end.
Proof.
  intros r. subst r.
  destruct (decide (i = "")) as [->|Hi].
  { rewrite run_empty_path by auto. observe. split; [not_in_events|].
    split; [not_in_events|done]. }
  destruct (decide (o = "")) as [->|Ho].
  { rewrite run_empty_path by auto. observe. split; [not_in_events|].
    rewrite andb_false_r. split; [not_in_events|done]. }
  rewrite !truthy_nonempty by done. cbn [andb].
  destruct w as [b ss jd sd su vw].
  unfold run_complex_spark_job, write_parquet.
  rewrite !truthy_nonempty, save_mode_overwrite by done. run_unfold.
  repeat run_step
    ltac:(run_unfold; observe;
          (split; [not_in_events|
                   split; [do 2 apply list_elem_of_further;
                           apply list_elem_of_here|reflexivity]])).
  observe. split; reflexivity.
Qed.

(** C3. When [input_path] or [output_path] is empty the run raises the
    configuration error, and it does so before any write: no write event
    was emitted and the engine, its store included, is left as it was. *)
Theorem empty_path_raises_before_any_write i o w :
  i = "" \/ o = "" ->
  let r := run_complex_spark_job i o w in
  outcome r = inl configuration_error /\
  writes (events r) = [] /\
  final r = w.
Proof. intros Hempty r. subst r. by rewrite run_empty_path. Qed.

(** C4. When the raw data is written and its re-read yields no row, the
    run raises the data integrity error, and nothing is performed after
    the count of the re-read: the events of the run end there, and the
    only write is that of the raw data. *)
Theorem zero_rows_raises_and_stops_processing i o w b1 file :
  i <> "" -> o <> "" ->
  put_object Overwrite (i +:+ "/raw_data") (RawData (generated w)) (bucket w)
  = inr b1 ->
  get_object (i +:+ "/raw_data") b1 = inr file ->
  read_as schema file = inr [] ->
  let r := run_complex_spark_job i o w in
  outcome r = inl data_integrity_error /\
  events r = (trace_to_reload i o (generated w)
              ++ [Count 0; Print "Read 0 records from S3"])%list /\
  writes (events r) = [("overwrite", i +:+ "/raw_data")] /\
  bucket (final r) = b1.
Proof.
  intros Hi Ho Hraw Hget Hread r. subst r.
  rewrite (run_zero_rows i o w b1 file) by done.
  repeat split; reflexivity.
Qed.


(** C7. In a run that completes, let [df] be the dataset that the run
    read back from [raw_data] after writing it, and [df4 = ranked w df]
    the ranked dataset that the run computed from it. The run wrote
    [sql_query df4] to [sql_results] and then [final_aggregate df4] to
    [final_results]; the groups of the former are the groups of [df4] with
    more than 100 members, and the groups of the latter are all the groups
    of [df4]. *)
Theorem sql_results_filtered_final_results_complete i o w w' evs :
  run_complex_spark_job i o w = (inr tt, w', evs) ->
  exists b1 file df df4 b2,
    put_object Overwrite (i +:+ "/raw_data") (RawData (generated w))
      (bucket w) = inr b1 /\
    get_object (i +:+ "/raw_data") b1 = inr file /\
    read_as schema file = inr df /\
    df4 = ranked w df /\
    put_object Overwrite (o +:+ "/sql_results")
      (SqlResults (sql_query df4)) b1 = inr b2 /\
    put_object Overwrite (o +:+ "/final_results")
      (FinalResults (final_aggregate df4)) b2 = inr (bucket w') /\
    (forall g, g ∈ s_group <$> sql_query df4 <->
               g ∈ r_group <$> df4 /\ 100 < group_size r_group g df4) /\
    (forall g, g ∈ f_group <$> final_aggregate df4 <-> g ∈ r_group <$> df4).
Proof.
  intros [df [_ _ (b1 & b2 & file & Hraw & Hget & Hread & Hsql & Hfinal) _ _ _]]
    %run_completed.
  exists b1, file, df, (ranked w df), b2.
  split; [exact Hraw|]. split; [exact Hget|]. split; [exact Hread|].
  split; [reflexivity|]. split; [exact Hsql|]. split; [exact Hfinal|].
  split; intros g.
  - rewrite sql_query_groups, list_elem_of_filter, elem_of_remove_dups.
    tauto.
  - by rewrite final_aggregate_groups, elem_of_remove_dups.
Qed.

(** C9. Two runs of the generation stage, whatever their seeds: the
    generated datasets have 10,000,000 rows each and the same [id] and
    [group] columns, while the [value] of a row is what the run's own seed
    draws at its position. *)
Theorem generation_count_and_groups_deterministic (w1 w2 : World) :
  count (generated w1) = 10000000 /\
  count (generated w2) = 10000000 /\
  raw_id <$> generated w1 = raw_id <$> generated w2 /\
  raw_group <$> generated w1 = raw_group <$> generated w2 /\
  (forall pos r1 r2,
      generated w1 !! pos = Some r1 -> generated w2 !! pos = Some r2 ->
      raw_value r1 = rand_at (seeds w1 (seeds_used w1)) pos /\
      raw_value r2 = rand_at (seeds w2 (seeds_used w2)) pos).
Proof.
  split; [apply count_generated_rows|]. split; [apply count_generated_rows|].
  unfold generated. split; [by rewrite !generated_ids|].
  split; [by rewrite !generated_groups|].
  intros pos r1 r2. unfold with_value_and_group.
  rewrite !list_lookup_imap.
  destruct (range 0 10000000 !! pos) as [i|]; [|done].
  by intros [= <-] [= <-].
Qed.

End Claims.

Section ReferenceClaims.
Context {N : Numerics}.
Implicit Types (w : @World N map_store).


(** C10. On the reference store, a run with both paths given completes;
    each of the groups 0 to 999 has exactly 10,000 members in the ranked
    dataset, so that the HAVING filter excludes none of them: the groups
    left at [sql_results] are 0 to 999 in this order, and those left at
    [final_results] are 0 to 999, each once. *)
Theorem reference_having_filter_excludes_nothing i o w :
  i <> "" -> o <> "" ->
  exists w' evs sql_result final_result,
    run_complex_spark_job i o w = (inr tt, w', evs) /\
    get_object (o +:+ "/sql_results") (bucket w')
    = inr (SqlResults sql_result) /\
    get_object (o +:+ "/final_results") (bucket w')
    = inr (FinalResults final_result) /\
    (forall g, 0 <= g < 1000 ->
               group_size r_group g (ranked w (generated w)) = 10000) /\
    s_group <$> sql_result = seqZ 0 1000 /\
    f_group <$> final_result ≡ₚ seqZ 0 1000.
Proof.
  intros Hi Ho. eexists _, _, _, _. split; [by apply run_reference|].
  split.
  { etrans; [apply get_file_insert_ne, sql_path_ne_final_path|].
    apply get_file_insert. }
  split; [apply get_file_insert|].
  split; [intros g; apply group_size_ranked|].
  split; [apply sql_groups_reference_ordered|apply final_groups_reference].
Qed.

End ReferenceClaims.

(** C6, as amended. The schema declared for the re-read has exactly the
    three fields [id], a long, [value], a double, and [group], a long, in
    this order, and declares each of them nullable; these are the columns
    of the raw data as written. *)
Theorem schema_declares_three_nullable_fields :
  (fun f => (field_name f, field_type f)) <$> schema
  = [("id", LongType); ("value", DoubleType); ("group", LongType)] /\
  nullable <$> schema = [true; true; true] /\
  (forall (N : Numerics) (rows : list RawRow),
      (fun f => (field_name f, field_type f)) <$> schema
      = columns (RawData rows)).
Proof. repeat split. Qed.

(** C6, as the specification words it, does not hold: no field of the
    declared schema is declared not null. *)
Lemma schema_fields_are_not_declared_not_null :
  ~ all_not_null schema /\
  Forall (fun f => nullable f <> false) schema.
Proof.
  split.
  - intros H. by apply Forall_cons_1 in H as [? _].
  - by repeat constructor.
Qed.

(** C2, as the specification words it, does not hold: when the store is
    not reachable the first write raises, and when the re-read yields no
    row the job raises; in both runs the session was acquired and the run
    exits without stopping it. *)
Lemma session_left_active_on_error_exits :
  ~ releases_session
      (run_complex_spark_job (N := integer_numerics) (S := unavailable_store)
         "s3://bucket/in" "s3://bucket/out" unreachable_world) /\
  ~ releases_session
      (run_complex_spark_job (N := integer_numerics) (S := purged_store)
         "s3://bucket/in" "s3://bucket/out" purged_world).
Proof.
  split.
  - rewrite (run_raw_write_fails (S := unavailable_store) _ _ _
               "service unavailable") by done.
    unfold releases_session. observe. cbv [take trace_to_reload].
    intros H. destruct H as [Hstop _].
    + do 2 apply list_elem_of_further. apply list_elem_of_here.
    + revert Hstop. not_in_events.
  - rewrite (run_zero_rows (S := purged_store) _ _ _ () (RawData []))
      by done.
    unfold releases_session. observe. cbv [app trace_to_reload trace_of_check].
    intros H. destruct H as [Hstop _].
    + do 2 apply list_elem_of_further. apply list_elem_of_here.
    + revert Hstop. not_in_events.
Qed.


(** ** The hypotheses of the claims are met *)

(** C1 at the paths of the reference scenario, on the reference store. *)
Lemma writes_exactly_three_datasets_witness :
  exists w' evs,
    run_complex_spark_job (N := integer_numerics) (S := map_store)
      "s3://bucket/in" "s3://bucket/out" fresh_world = (inr tt, w', evs) /\
    writes evs = [("overwrite", "s3://bucket/in/raw_data");
                  ("overwrite", "s3://bucket/out/sql_results");
                  ("overwrite", "s3://bucket/out/final_results")].
Proof.
  eexists _, _. split; [by apply run_reference|].
  eapply proj1,
    (writes_exactly_three_datasets (N := integer_numerics) (S := map_store)
       "s3://bucket/in" "s3://bucket/out" fresh_world);
    [done|done|by apply run_reference].
Defined.

(** C3 at an empty input path. *)
Lemma empty_path_raises_before_any_write_witness :
  let r := run_complex_spark_job (N := integer_numerics) (S := map_store)
             "" "s3://bucket/out" fresh_world in
  outcome r = inl configuration_error /\
  writes (events r) = [] /\
  final r = fresh_world.
Proof.
  apply (empty_path_raises_before_any_write (N := integer_numerics)
           (S := map_store) "" "s3://bucket/out" fresh_world).
  left. reflexivity.
Defined.

(** C4 on a store that lists no data file on reading. *)
Lemma zero_rows_raises_and_stops_processing_witness :
  let r := run_complex_spark_job (N := integer_numerics) (S := purged_store)
             "s3://bucket/in" "s3://bucket/out" purged_world in
  outcome r = inl data_integrity_error /\
  writes (events r) = [("overwrite", "s3://bucket/in/raw_data")].
Proof.
  destruct (zero_rows_raises_and_stops_processing (N := integer_numerics)
              (S := purged_store) "s3://bucket/in" "s3://bucket/out"
              purged_world () (RawData []))
    as (Hout & _ & Hwrites & _);
    [discriminate|discriminate|reflexivity|reflexivity|reflexivity|].
  split; [exact Hout|exact Hwrites].
Defined.


(** C7 on the reference store. *)
Lemma sql_results_filtered_final_results_complete_witness :
  exists w' evs b1 file df df4 b2,
    run_complex_spark_job (N := integer_numerics) (S := map_store)
      "s3://bucket/in" "s3://bucket/out" fresh_world = (inr tt, w', evs) /\
    put_object Overwrite "s3://bucket/in/raw_data"
      (RawData (generated fresh_world)) (bucket fresh_world) = inr b1 /\
    get_object "s3://bucket/in/raw_data" b1 = inr file /\
    read_as schema file = inr df /\
    df4 = ranked fresh_world df /\
    put_object Overwrite "s3://bucket/out/sql_results"
      (SqlResults (sql_query df4)) b1 = inr b2 /\
    put_object Overwrite "s3://bucket/out/final_results"
      (FinalResults (final_aggregate df4)) b2 = inr (bucket w') /\
    (forall g, g ∈ s_group <$> sql_query df4 <->
               g ∈ r_group <$> df4 /\ 100 < group_size r_group g df4) /\
    (forall g, g ∈ f_group <$> final_aggregate df4 <-> g ∈ r_group <$> df4).
Proof.
  pose proof (run_reference (N := integer_numerics)
                "s3://bucket/in" "s3://bucket/out" fresh_world
                ltac:(discriminate) ltac:(discriminate)) as Hrun.
  destruct (sql_results_filtered_final_results_complete
              (N := integer_numerics) (S := map_store) _ _ _ _ _ Hrun)
    as (b1 & file & df & df4 & b2 & H).
  eexists _, _, b1, file, df, df4, b2. split; [exact Hrun|exact H].
Defined.


(** C10 at the paths of the reference scenario. *)
Lemma reference_having_filter_excludes_nothing_witness :
  exists w' evs sql_result final_result,
    run_complex_spark_job (N := integer_numerics) (S := map_store)
      "s3://bucket/in" "s3://bucket/out" fresh_world = (inr tt, w', evs) /\
    get_object "s3://bucket/out/sql_results" (bucket w')
    = inr (SqlResults sql_result) /\
    get_object "s3://bucket/out/final_results" (bucket w')
    = inr (FinalResults final_result) /\
    s_group <$> sql_result = seqZ 0 1000 /\
    f_group <$> final_result ≡ₚ seqZ 0 1000.
Proof.
  destruct (reference_having_filter_excludes_nothing (N := integer_numerics)
              "s3://bucket/in" "s3://bucket/out" fresh_world)
    as (w' & evs & sql_result & final_result & Hrun & Hsql & Hfinal & _ & H);
    [discriminate|discriminate|].
  exists w', evs, sql_result, final_result. auto.
Defined.

(** * Further properties of the job *)

(** ** The other error exits *)

Section MoreExits.
Context {N : Numerics} {S : ObjectStore}.
Implicit Types (w : World) (evs : list Event).

(** The exit on a failure of the re-read. *)
Lemma run_read_fails i o w b1 msg :
  i <> "" -> o <> "" ->
  put_object Overwrite (i +:+ "/raw_data") (RawData (generated w)) (bucket w)
  = inr b1 ->
  (get_object (i +:+ "/raw_data") b1 = inl msg \/
   exists file, get_object (i +:+ "/raw_data") b1 = inr file /\
                read_as schema file = inl msg) ->
  run_complex_spark_job i o w
  = (inl (EngineError msg),
     mkWorld b1 Active (Some "Writing initial dataset") (seeds w)
       (Datatypes.S (seeds_used w)) (views w),
     trace_to_reload i o (generated w)).
Proof.
  intros Hi Ho Hraw Hget. destruct w as [b ss jd sd su vw].
  unfold generated in *. cbn [bucket seeds seeds_used] in *.
  unfold run_complex_spark_job, write_parquet.
  rewrite !truthy_nonempty, save_mode_overwrite by done. run_unfold.
  rewrite Hraw. run_unfold.
  destruct Hget as [Hget|(file & Hget & Hread)]; rewrite Hget; run_unfold;
    [done|]. rewrite Hread. by run_unfold.
Qed.

(** The exit on a failure of the last write. *)
Lemma run_final_write_fails i o w df b1 b2 file msg :
  i <> "" -> o <> "" ->
  put_object Overwrite (i +:+ "/raw_data") (RawData (generated w)) (bucket w)
  = inr b1 ->
  get_object (i +:+ "/raw_data") b1 = inr file ->
  read_as schema file = inr df ->
  count df <> 0 ->
  put_object Overwrite (o +:+ "/sql_results")
    (SqlResults (sql_query (ranked w df))) b1 = inr b2 ->
  put_object Overwrite (o +:+ "/final_results")
    (FinalResults (final_aggregate (ranked w df))) b2 = inl msg ->
  run_complex_spark_job i o w
  = (inl (EngineError msg),
     mkWorld b2 Active (Some "Writing initial dataset") (seeds w)
       (Datatypes.S (Datatypes.S (seeds_used w)))
       (<["complex_data" := ranked w df]> (views w)),
     (trace_to_reload i o (generated w) ++ trace_of_check df
      ++ take 28 (trace_of_processing o df (ranked w df)
                    (sql_query (ranked w df))
                    (final_aggregate (ranked w df))))%list).
Proof.
  intros Hi Ho Hraw Hget Hread Hrows Hsql Hfinal.
  destruct w as [b ss jd sd su vw].
  unfold generated, ranked in *. cbn [bucket seeds seeds_used views] in *.
  unfold run_complex_spark_job, write_parquet.
  rewrite !truthy_nonempty, save_mode_overwrite by done. run_unfold.
  rewrite Hraw. run_unfold. rewrite Hget. run_unfold. rewrite Hread.
  run_unfold. rewrite decide_False by done. run_unfold.
  rewrite lookup_insert_eq. run_unfold.
  unfold broadcast in *. rewrite Hsql. run_unfold. rewrite Hfinal.
  by run_unfold.
Qed.

(** The window functions and the join keep the number of rows. *)
Lemma count_ranked w df : count (ranked w df) = count df.
Proof.
  unfold count. f_equal.
  rewrite <- (length_fmap r_group), (ranked_groups w df). apply length_fmap.
Qed.

(** X1. The control flow is one sequence: whatever the store answers and
    whichever exit is taken, the events of a run are an initial segment of
    the events of the complete job, for the dataset that was reloaded. The
    job never repeats a call and never takes another path. *)
Theorem run_events_prefix_of_job_trace i o w :
  exists df,
    events (run_complex_spark_job i o w)
    `prefix_of` (trace_to_reload i o (generated w) ++ trace_of_check df
                 ++ trace_of_processing o df (ranked w df)
                      (sql_query (ranked w df))
                      (final_aggregate (ranked w df)))%list.
Proof.
  destruct (decide (i = "")) as [->|Hi].
  { exists []. rewrite run_empty_path by auto. observe.
    eexists. cbv [trace_to_reload app]. reflexivity. }
  destruct (decide (o = "")) as [->|Ho].
  { exists []. rewrite run_empty_path by auto. observe.
    eexists. cbv [trace_to_reload app]. reflexivity. }
  destruct w as [b ss jd sd su vw].
  unfold generated, ranked. cbn [seeds seeds_used].
  unfold run_complex_spark_job, write_parquet.
  rewrite !truthy_nonempty, save_mode_overwrite by done. run_unfold.
  unfold broadcast.
  repeat run_step
    ltac:(run_unfold; observe;
          first [ match goal with
                  | H : read_as _ _ = inr ?l |- _ => exists l
                  end
                | exists [] ];
          eexists;
          cbv [trace_to_reload trace_of_check trace_of_processing app];
          reflexivity).
  observe.
  match goal with H : read_as _ _ = inr ?l |- _ => exists l end.
  exists []. cbv [trace_to_reload trace_of_check trace_of_processing app].
  reflexivity.
Qed.

(** X2. When the write of the raw data fails, the job raises the error of
    the engine as it is: the failed write is its last call, and nothing
    was counted. *)
Theorem raw_write_failure_propagates i o w msg :
  i <> "" -> o <> "" ->
  put_object Overwrite (i +:+ "/raw_data") (RawData (generated w)) (bucket w)
  = inl msg ->
  let r := run_complex_spark_job i o w in
  outcome r = inl (EngineError msg) /\
  last (events r) = Some (Write "overwrite" (i +:+ "/raw_data")) /\
  counts (events r) = [].
Proof.
  intros Hi Ho Hraw r. subst r.
  rewrite (run_raw_write_fails i o w msg) by done.
  repeat split; reflexivity.
Qed.


(** X4. When the write of the final results fails, after the raw data and
    the query results were written, the job raises the error of the engine
    as it is: the failed write is its last call, so that no sample is
    shown and the final count is never taken, and the session is left
    active. *)
Theorem final_write_failure_propagates i o w df b1 b2 file msg :
  i <> "" -> o <> "" ->
  put_object Overwrite (i +:+ "/raw_data") (RawData (generated w)) (bucket w)
  = inr b1 ->
  get_object (i +:+ "/raw_data") b1 = inr file ->
  read_as schema file = inr df ->
  count df <> 0 ->
  put_object Overwrite (o +:+ "/sql_results")
    (SqlResults (sql_query (ranked w df))) b1 = inr b2 ->
  put_object Overwrite (o +:+ "/final_results")
    (FinalResults (final_aggregate (ranked w df))) b2 = inl msg ->
  let r := run_complex_spark_job i o w in
  outcome r = inl (EngineError msg) /\
  last (events r) = Some (Write "overwrite" (o +:+ "/final_results")) /\
  writes (events r) = [("overwrite", i +:+ "/raw_data");
                       ("overwrite", o +:+ "/sql_results");
                       ("overwrite", o +:+ "/final_results")] /\
  counts (events r)
  = [count (generated w); count df; count df; count (ranked w df)] /\
  session (final r) = Active.
Proof.
  intros Hi Ho Hraw Hget Hread Hrows Hsql Hfinal r. subst r.
  rewrite (run_final_write_fails i o w df b1 b2 file msg) by done.
  repeat split; reflexivity.
Qed.

End MoreExits.

(** ** Counting rows and groups *)

Lemma sum_group_sizes {A} (key : A -> Z) (keys : list Z) (df : list A) :
  sum_long ((fun g => group_size key g df) <$> keys)
  = count (keys ≫= fun g => filter (fun r => key r = g) df).
Proof.
  unfold sum_long, group_size, count. induction keys as [|k keys IH]; [done|].
  rewrite fmap_cons, bind_cons, length_app. simpl. rewrite IH. lia.
Qed.

(** The sizes of the groups of a dataframe add up to its number of rows. *)
Lemma sum_of_group_sizes {A} (key : A -> Z) (df : list A) :
  sum_long ((fun g => group_size key g df) <$> remove_dups (key <$> df))
  = count df.
Proof.
  rewrite sum_group_sizes. unfold count. f_equal.
  apply Permutation_length, partition_by_key; [apply NoDup_remove_dups|].
  intros r Hr. by apply elem_of_remove_dups, list_elem_of_fmap_2.
Qed.

Lemma bind_select {A B} (F : A -> list B) (keys : list A) (g : A) :
  NoDup keys -> g ∈ keys -> (forall k, k ∈ keys -> k <> g -> F k = []) ->
  keys ≫= F = F g.
Proof.
  induction keys as [|k keys IH]; intros Hnd Hg Hother;
    [by apply elem_of_nil in Hg|].
  apply NoDup_cons in Hnd as [Hk Hnd]. rewrite bind_cons.
  apply elem_of_cons in Hg as [->|Hg].
  - assert (keys ≫= F = []) as ->; [|by rewrite app_nil_r].
    clear IH. induction keys as [|k' keys IH']; [done|].
    rewrite bind_cons, Hother, IH'; [done| | | | |].
    + by apply not_elem_of_cons in Hk as [_ ?].
    + by apply NoDup_cons in Hnd as [_ ?].
    + intros k0 Hk0 Hne. apply Hother; [|done].
      apply elem_of_cons in Hk0 as [->|?]; [left|right; by right].
    + right. left.
    + intros ->. apply Hk. left.
  - rewrite Hother; [|left|by intros ->]. simpl. apply IH; [done|done|].
    intros k0 Hk0. apply Hother. by right.
Qed.

Lemma filter_bind_list {A B} (P : B -> Prop) `{!forall y, Decision (P y)}
    (F : A -> list B) (l : list A) :
  filter P (l ≫= F) = l ≫= (fun x => filter P (F x)).
Proof.
  induction l as [|x l IH]; [done|]. by rewrite !bind_cons, filter_app, IH.
Qed.

Lemma imap_positions {A B} (h : nat -> B) (l : list A) :
  imap (fun pos _ => h pos) l = h <$> seq 0 (length l).
Proof.
  apply list_eq. intros i. rewrite list_lookup_imap, list_lookup_fmap.
  destruct (l !! i) as [x|] eqn:Hi.
  - rewrite lookup_seq_lt by (by eapply lookup_lt_Some). done.
  - apply lookup_ge_None in Hi. simpl.
    by rewrite (proj2 (lookup_ge_None (seq 0 (length l)) i))
      by (rewrite length_seq; lia).
Qed.

Lemma max_row_numbers (x : Z) (a n : nat) :
  foldr Z.max x (row_number <$> seq a n)
  = if n is O then x else Z.max x (Z.of_nat (a + n)).
Proof.
  revert a. induction n as [|n IH]; intros a; [done|].
  simpl. rewrite IH. unfold row_number. destruct n; simpl; lia.
Qed.

(** The largest of the row numbers 1, ..., [n] is [n]. *)
Lemma max_long_row_numbers (n : nat) :
  max_long (row_number <$> seq 0 n) = Z.of_nat n.
Proof.
  destruct n as [|n]; [done|]. simpl. rewrite max_row_numbers.
  unfold row_number. destruct n; simpl; lia.
Qed.

Lemma length_remove_dups_le (l : list Z) :
  (length (remove_dups l) <= length l)%nat.
Proof.
  induction l as [|x l IH]; [done|]. simpl.
  destruct (decide_rel elem_of x l); simpl; lia.
Qed.

Lemma length_remove_dups_pos (l : list Z) :
  l <> [] -> (1 <= length (remove_dups l))%nat.
Proof.
  destruct l as [|x l]; [done|]. intros _.
  assert (x ∈ remove_dups (x :: l)) as Hx by (apply elem_of_remove_dups; left).
  destruct (remove_dups (x :: l)); [by apply elem_of_nil in Hx|simpl; lia].
Qed.

Lemma StronglySorted_le_lt (l : list Z) :
  StronglySorted Z.le l -> NoDup l -> StronglySorted Z.lt l.
Proof.
  induction 1 as [|x l Hs IH Hall]; intros Hnd; [constructor|].
  apply NoDup_cons in Hnd as [Hx Hnd]. constructor; [by apply IH|].
  apply Forall_forall. intros y Hy.
  assert (x <= y) by (by eapply Forall_forall in Hall).
  assert (x <> y) by (by intros ->). lia.
Qed.

Section Window.
Context {N : Numerics}.

(** The rows of a window partition are rows of its group. *)
Lemma partition_rows_group w df3 g r :
  r ∈ partition_rows w df3 g -> partition_by w r = g.
Proof.
  unfold partition_rows. rewrite merge_sort_Permutation.
  by intros [? _]%list_elem_of_filter.
Qed.

(** The rows of [df4] of one group are the numbered rows of its window
    partition. *)
Lemma with_rankings_group df3 g :
  g ∈ j_group <$> df3 ->
  filter (fun r => r_group r = g) (with_rankings window_spec df3)
  = imap (fun pos r =>
            mkRanked r (row_number pos)
              (rank (j_random <$> partition_rows window_spec df3 g)
                 (j_random r))
              (dense_rank (j_random <$> partition_rows window_spec df3 g)
                 (j_random r)))
         (partition_rows window_spec df3 g).
Proof.
  intros Hg. unfold with_rankings. rewrite filter_bind_list.
  rewrite (bind_select _ _ g).
  - apply filter_all. intros r (pos & x & -> & Hx)%elem_of_lookup_imap.
    apply list_elem_of_lookup_2, partition_rows_group in Hx. done.
  - apply NoDup_remove_dups.
  - by apply elem_of_remove_dups.
  - intros k _ Hk. apply filter_none.
    intros r (pos & x & -> & Hx)%elem_of_lookup_imap.
    apply list_elem_of_lookup_2, partition_rows_group in Hx.
    unfold r_group. simpl. simpl in Hx. congruence.
Qed.

Lemma count_final_aggregate df4 :
  count (final_aggregate df4)
  = Z.of_nat (length (remove_dups (r_group <$> df4))).
Proof.
  unfold count. by rewrite <- (length_fmap f_group), final_aggregate_groups.
Qed.

End Window.

Section PipelineExtras.
Context {N : Numerics}.

(** X5. The counts of the final aggregation add up to the number of rows
    of the ranked dataset, and each of them is at least 1: the final
    results account for every row once, and leave out a group with no
    row. *)
Theorem final_counts_sum_to_total df4 :
  sum_long (f_count <$> final_aggregate df4) = count df4 /\
  Forall (fun f => 1 <= f_count f) (final_aggregate df4).
Proof.
  split.
  - rewrite <- (sum_of_group_sizes r_group df4). f_equal.
    unfold final_aggregate, repartition, groupBy.
    rewrite <- !list_fmap_compose. by apply list_fmap_ext.
  - apply Forall_forall. intros f [Hg ->]%elem_of_final_aggregate.
    apply list_elem_of_fmap in Hg as (r & Hr & Hin).
    unfold group_size, count.
    assert (r ∈ filter (fun x => r_group x = f_group f) df4) as Hmem
      by (by apply list_elem_of_filter).
    destruct (filter _ df4); [by apply elem_of_nil in Hmem|simpl; lia].
Qed.

(** X6. [max_row_num] repeats [count]: the window that numbers the rows
    is partitioned by the column that the final aggregation groups by, so
    that in each row of the final results the largest row number of the
    group is its number of rows. *)
Theorem max_row_num_equals_count df3 :
  Forall (fun f => f_max_row_num f = f_count f)
    (final_aggregate (with_rankings window_spec df3)).
Proof.
  apply Forall_forall. intros f. unfold final_aggregate, repartition.
  intros ([g rows] & -> & [Hg ->]%elem_of_groupBy)%list_elem_of_fmap.
  cbn [f_max_row_num f_count].
  rewrite with_rankings_groups in Hg.
  rewrite (with_rankings_group df3 g Hg).
  rewrite fmap_imap, (imap_positions row_number), max_long_row_numbers.
  unfold count. by rewrite length_imap.
Qed.

(** X7. The join puts on every row the aggregates of the row's own group:
    the [count] of a joined row is the number of rows of the transformed
    dataset in its group, which is one of the groups of that dataset. *)
Theorem joined_rows_carry_group_count df1 :
  Forall (fun r => j_group r ∈ t_group <$> df1 /\
                   j_count r = group_size t_group (j_group r) df1)
    (join df1 (broadcast (aggregate df1))).
Proof.
  apply Forall_forall. intros r. unfold join, broadcast.
  intros (x & (a & Hr & Ha)%list_elem_of_bind & Hx)%list_elem_of_bind.
  apply list_elem_of_filter in Ha as [Hgroup Ha].
  apply list_elem_of_singleton in Hr as ->. cbn [j_group j_count].
  split; [by apply list_elem_of_fmap_2|].
  unfold aggregate in Ha.
  apply list_elem_of_fmap in Ha as ([g rows] & -> & [Hg ->]%elem_of_groupBy).
  cbn [a_group a_count] in *. by subst.
Qed.

(** X8. On a dataset that the generation stage produced, the
    transformation changes nothing of what was there: the second
    [withColumn("group", ...)] recomputes the group column as it is, the
    [id] and [value] columns are kept, and no row is added or lost. *)
Theorem transform_keeps_generated_columns seed seed' (ids : list Z) :
  let df := with_value_and_group seed ids in
  let df1 := transform seed' df in
  t_id <$> df1 = raw_id <$> df /\
  t_value <$> df1 = raw_value <$> df /\
  t_group <$> df1 = raw_group <$> df /\
  count df1 = count df.
Proof.
  intros df df1. subst df df1. unfold transform, repartition.
  repeat split.
  - apply list_eq. intros i.
    rewrite !list_lookup_fmap, list_lookup_imap.
    by destruct (with_value_and_group seed ids !! i).
  - apply list_eq. intros i.
    rewrite !list_lookup_fmap, list_lookup_imap.
    by destruct (with_value_and_group seed ids !! i).
  - apply list_eq. intros i. unfold with_value_and_group.
    rewrite !list_lookup_fmap, !list_lookup_imap.
    by destruct (ids !! i).
  - unfold count. by rewrite length_imap.
Qed.

(** X9. The rows of the query result come by strictly increasing group:
    [GROUP BY group] gives each group at most one row and [ORDER BY group]
    puts them in order. *)
Theorem sql_result_strictly_ordered df4 :
  StronglySorted Z.lt (s_group <$> sql_query df4).
Proof.
  apply StronglySorted_le_lt.
  - apply Sorted_StronglySorted; [apply _|apply sql_query_ordered].
  - rewrite sql_query_groups. apply NoDup_filter, NoDup_remove_dups.
Qed.

End PipelineExtras.

Section RunExtras.
Context {N : Numerics} {S : ObjectStore}.
Implicit Types (w : World) (evs : list Event).


End RunExtras.

Section ReferenceExtras.
Context {N : Numerics}.
Implicit Types (w : @World N map_store).

Lemma reference_run_bucket i o w :
  i <> "" -> o <> "" ->
  bucket (final (run_complex_spark_job i o w))
  = <[o +:+ "/final_results" :=
        FinalResults (final_aggregate (ranked w (generated w)))]>
      (<[o +:+ "/sql_results" :=
           SqlResults (sql_query (ranked w (generated w)))]>
         (<[i +:+ "/raw_data" := RawData (generated w)]> (bucket w))).
Proof. intros Hi Ho. rewrite run_reference by done. reflexivity. Qed.

Lemma get_file_insert_same path path' file (b1 b2 : gmap string Parquet) :
  get_object (ObjectStore := map_store) path' b1
  = get_object (ObjectStore := map_store) path' b2 ->
  get_object (ObjectStore := map_store) path' (<[path := file]> b1)
  = get_object (ObjectStore := map_store) path' (<[path := file]> b2).
Proof.
  intros Hsame. destruct (decide (path = path')) as [->|Hne].
  - etrans; [apply get_file_insert|symmetry; apply get_file_insert].
  - etrans; [by apply get_file_insert_ne|].
    etrans; [exact Hsame|]. symmetry. by apply get_file_insert_ne.
Qed.

(** X11. On the reference store, a run with both paths given completes and
    leaves the three datasets readable at their locations: the generated
    dataset at [raw_data], the query result at [sql_results], the final
    aggregation at [final_results]; every other location of the store
    reads as before the run. *)
Theorem reference_run_artifacts_and_frame i o w :
  i <> "" -> o <> "" ->
  exists w' evs,
    run_complex_spark_job i o w = (inr tt, w', evs) /\
    get_object (i +:+ "/raw_data") (bucket w') = inr (RawData (generated w)) /\
    get_object (o +:+ "/sql_results") (bucket w')
    = inr (SqlResults (sql_query (ranked w (generated w)))) /\
    get_object (o +:+ "/final_results") (bucket w')
    = inr (FinalResults (final_aggregate (ranked w (generated w)))) /\
    (forall path,
        path ∉ [i +:+ "/raw_data"; o +:+ "/sql_results";
                o +:+ "/final_results"] ->
        get_object path (bucket w') = get_object path (bucket w)).
Proof.
  intros Hi Ho. eexists _, _. split; [by apply run_reference|].
  pose proof (locations_distinct i o) as Hnd.
  apply NoDup_cons in Hnd as [Hraw Hnd]. apply NoDup_cons in Hnd as [Hsql _].
  apply not_elem_of_cons in Hraw as [Hrs Hraw].
  apply not_elem_of_cons in Hraw as [Hrf _].
  apply not_elem_of_cons in Hsql as [Hsf _].
  cbn [bucket]. repeat split.
  - etrans; [apply get_file_insert_ne; congruence|].
    etrans; [apply get_file_insert_ne; congruence|]. apply get_file_insert.
  - etrans; [apply get_file_insert_ne; congruence|]. apply get_file_insert.
  - apply get_file_insert.
  - intros path Hpath.
    apply not_elem_of_cons in Hpath as [H1 Hpath].
    apply not_elem_of_cons in Hpath as [H2 Hpath].
    apply not_elem_of_cons in Hpath as [H3 _].
    etrans; [apply get_file_insert_ne; congruence|].
    etrans; [apply get_file_insert_ne; congruence|].
    apply get_file_insert_ne; congruence.
Qed.

(** X12. On the reference store, what a run leaves at its three locations
    depends on the two seeds it draws and on nothing that the store held:
    two runs with the same paths and the same seeds, started on any two
    stores, leave the same dataset at each of the three locations. Every
    write being in overwrite mode, a run over the outputs of an earlier
    one replaces them. *)
Theorem rerun_overwrites_earlier_outputs i o w1 w2 path :
  i <> "" -> o <> "" ->
  seeds w1 (seeds_used w1) = seeds w2 (seeds_used w2) ->
  seeds w1 (Datatypes.S (seeds_used w1))
  = seeds w2 (Datatypes.S (seeds_used w2)) ->
  path ∈ [i +:+ "/raw_data"; o +:+ "/sql_results"; o +:+ "/final_results"] ->
  get_object path (bucket (final (run_complex_spark_job i o w1)))
  = get_object path (bucket (final (run_complex_spark_job i o w2))).
Proof.
  intros Hi Ho Hseed1 Hseed2 Hpath.
  rewrite (reference_run_bucket i o w1), (reference_run_bucket i o w2) by done.
  assert (generated w1 = generated w2) as Hgen
    by (unfold generated; rewrite Hseed1; reflexivity).
  assert (ranked w1 (generated w1) = ranked w2 (generated w2)) as Hranked
    by (unfold ranked; rewrite Hgen, Hseed2; reflexivity).
  rewrite Hranked, Hgen.
  apply elem_of_cons in Hpath as [->|Hpath].
  { do 2 apply get_file_insert_same.
    etrans; [apply get_file_insert|symmetry; apply get_file_insert]. }
  apply elem_of_cons in Hpath as [->|Hpath].
  { apply get_file_insert_same.
    etrans; [apply get_file_insert|symmetry; apply get_file_insert]. }
  apply list_elem_of_singleton in Hpath as ->.
  etrans; [apply get_file_insert|symmetry; apply get_file_insert].
Qed.

End ReferenceExtras.

(** ** The hypotheses of the further properties are met *)

(** X2 on a store that is not reachable. *)
Lemma raw_write_failure_propagates_witness :
  let r := run_complex_spark_job (N := integer_numerics)
             (S := unavailable_store) "s3://bucket/in" "s3://bucket/out"
             unreachable_world in
  outcome r = inl (EngineError "service unavailable") /\
  last (events r) = Some (Write "overwrite" "s3://bucket/in/raw_data") /\
  counts (events r) = [].
Proof.
  apply (raw_write_failure_propagates (N := integer_numerics)
           (S := unavailable_store) "s3://bucket/in" "s3://bucket/out"
           unreachable_world "service unavailable");
    [discriminate|discriminate|reflexivity].
Defined.


(** X4 on a store whose policy denies the writes to
    [s3://bucket/out/final_results]. *)
Lemma final_write_failure_propagates_witness :
  let deny := String.eqb "s3://bucket/out/final_results" in
  let r := run_complex_spark_job (N := integer_numerics)
             (S := guarded_store deny (fun _ => false))
             "s3://bucket/in" "s3://bucket/out"
             (guarded_world deny (fun _ => false)) in
  outcome r = inl (EngineError "access denied") /\
  last (events r) = Some (Write "overwrite" "s3://bucket/out/final_results").
Proof.
  set (deny := String.eqb "s3://bucket/out/final_results").
  set (w := guarded_world (H := integer_numerics) deny (fun _ => false)).
  destruct (final_write_failure_propagates (N := integer_numerics)
              (S := guarded_store deny (fun _ => false))
              "s3://bucket/in" "s3://bucket/out" w (generated w)
              (<["s3://bucket/in/raw_data" := RawData (generated w)]> ∅)
              (<["s3://bucket/out/sql_results" :=
                   SqlResults (sql_query (ranked w (generated w)))]>
                 (<["s3://bucket/in/raw_data" := RawData (generated w)]> ∅))
              (RawData (generated w)) "access denied")
    as (Hout & Hlast & _);
    [discriminate|discriminate|reflexivity| |apply read_as_schema|
     |reflexivity|reflexivity|].
  - apply (get_file_insert (N := integer_numerics)).
  - rewrite count_generated_rows. discriminate.
  - split; [exact Hout|exact Hlast].
Defined.


(** X11 at the paths of the reference scenario. *)
Lemma reference_run_artifacts_and_frame_witness :
  exists w' evs,
    run_complex_spark_job (N := integer_numerics) (S := map_store)
      "s3://bucket/in" "s3://bucket/out" fresh_world = (inr tt, w', evs) /\
    get_object "s3://bucket/in/raw_data" (bucket w')
    = inr (RawData (generated fresh_world)) /\
    get_object "s3://bucket/elsewhere" (bucket w')
    = get_object "s3://bucket/elsewhere" (bucket fresh_world).
Proof.
  destruct (reference_run_artifacts_and_frame (N := integer_numerics)
              "s3://bucket/in" "s3://bucket/out" fresh_world)
    as (w' & evs & Hrun & Hraw & _ & _ & Hframe);
    [discriminate|discriminate|].
  exists w', evs. split; [exact Hrun|]. split; [exact Hraw|].
  apply Hframe.
  repeat (apply not_elem_of_cons; split; [discriminate|]).
  apply not_elem_of_nil.
Defined.

(** X12 on an empty store and on a store that holds an earlier output. *)
Lemma rerun_overwrites_earlier_outputs_witness :
  let earlier : @World integer_numerics map_store :=
    @mkWorld _ map_store
      (<["s3://bucket/out/final_results" := FinalResults []]> ∅)
      NoSession None Z.of_nat 0%nat ∅ in
  get_object "s3://bucket/out/final_results"
    (bucket (final (run_complex_spark_job "s3://bucket/in" "s3://bucket/out"
                      fresh_world)))
  = get_object "s3://bucket/out/final_results"
      (bucket (final (run_complex_spark_job "s3://bucket/in"
                        "s3://bucket/out" earlier))).
Proof.
  intros earlier.
  apply (rerun_overwrites_earlier_outputs (N := integer_numerics)
           "s3://bucket/in" "s3://bucket/out" fresh_world earlier
           "s3://bucket/out/final_results");
    [discriminate|discriminate|reflexivity|reflexivity|].
  do 2 apply list_elem_of_further. apply list_elem_of_here.
Defined.
